(** * TreeViz OAuth client: PKCE popup flow

    A shallow embedding of the TypeScript sources of [@treeviz/oauth]
    (the PKCE utilities, the backend exchange helper, and the [TreeVizOAuth]
    client in its current revision and in its first one), followed by the
    properties of the authorization handshake proved about them. *)

From Stdlib Require Import NArith ZArith Ascii String List Lia Bool.
From stdpp Require Import base strings gmap list pretty.

Set Warnings "-register-all".
Local Open Scope string_scope.

(** ** JavaScript values, truthiness and exceptions *)

Module JS.

(** The values that travel through [postMessage] and [JSON.parse]. Numbers
    are kept as integers (HTTP statuses, pixel sizes, expiry seconds). *)
Inductive value :=
| VUndefined
| VNull
| VBool (b : bool)
| VNum (n : Z)
| VStr (s : string)
| VArr (items : list value)
| VObj (fields : list (string * value)).

(** What [throw] can carry: an [Error] (or subclass, told apart by its
    [name]) with its message, or any other thrown value. *)
Inductive exn :=
| JsError (name : string) (message : string)
| JsThrown (v : value).

Inductive result (A : Type) :=
| Ok (a : A)
| Throw (e : exn).
Arguments Ok {A} a.
Arguments Throw {A} e.

Definition bind {A B} (m : result A) (k : A -> result B) : result B :=
  match m with
  | Ok a => k a
  | Throw e => Throw e
  end.

Notation "'do' x <- m ; k" := (bind m (fun x => k))
  (at level 10, x name, m at level 100, k at level 200).

(** [!!v] in JavaScript. *)
Definition truthy (v : value) : bool :=
  match v with
  | VUndefined | VNull => false
  | VBool b => b
  | VNum n => negb (n =? 0)%Z
  | VStr s => negb (String.eqb s "")
  | VArr _ | VObj _ => true
  end.

(** [a || b]. *)
Definition or_else (a b : value) : value :=
  if truthy a then a else b.

Fixpoint assoc (k : string) (fields : list (string * value)) : option value :=
  match fields with
  | [] => None
  | (k', v) :: rest => if String.eqb k k' then Some v else assoc k rest
  end.

(** [v.k] for the property names the client reads ([type], [code], [token],
    [uid], [email], [displayName], [photoURL], [error], [result],
    [firebaseToken], [user]): none of them lives on a prototype, so a
    primitive or an array answers [undefined], while [null] and [undefined]
    throw a [TypeError]. *)
Definition get (v : value) (k : string) : result value :=
  match v with
  | VUndefined =>
      Throw (JsError "TypeError"
               ("Cannot read properties of undefined (reading '" +:+ k +:+ "')"))
  | VNull =>
      Throw (JsError "TypeError"
               ("Cannot read properties of null (reading '" +:+ k +:+ "')"))
  | VObj fields => Ok (default VUndefined (assoc k fields))
  | _ => Ok VUndefined
  end.

(** [a === b] against a string literal. *)
Definition is_str (v : value) (s : string) : bool :=
  match v with
  | VStr s' => String.eqb s' s
  | _ => false
  end.

Fixpoint join (sep : string) (l : list string) : string :=
  match l with
  | [] => ""
  | [s] => s
  | s :: rest => s +:+ sep +:+ join sep rest
  end.

(** [String(v)], as the [Error] constructor applies it to its argument.
    Exact on strings, booleans, [null], [undefined], objects and on integers
    of magnitude below 10^21; beyond that JavaScript prints a number in
    exponent notation, which is not modelled. *)
Fixpoint to_string (v : value) : string :=
  match v with
  | VUndefined => "undefined"
  | VNull => "null"
  | VBool true => "true"
  | VBool false => "false"
  | VNum n => pretty n
  | VStr s => s
  | VArr items =>
      join ","
        (List.map (fun x => match x with
                            | VUndefined | VNull => ""
                            | _ => to_string x
                            end) items)
  | VObj _ => "[object Object]"
  end.

Definition throws {A} (r : result A) : bool :=
  match r with
  | Throw _ => true
  | Ok _ => false
  end.

(** [!!v.k], false also when reading [v.k] throws. *)
Definition has_truthy (v : value) (k : string) : bool :=
  match get v k with
  | Ok x => truthy x
  | Throw _ => false
  end.

(** [k in v] for an object literal. *)
Definition has_field (v : value) (k : string) : bool :=
  match v with
  | VObj fields => bool_decide (is_Some (assoc k fields))
  | _ => false
  end.

(** [e instanceof Error]. *)
Definition instanceof_Error (e : exn) : bool :=
  match e with
  | JsError _ _ => true
  | JsThrown _ => false
  end.

End JS.

(** ** pkce.ts *)

Module Pkce.

Definition base64_alphabet : string :=
  "ABCDEFGHIJKLMNOPQRSTUVWXYZabcdefghijklmnopqrstuvwxyz0123456789+/".

(** The character of a 6-bit group. *)
Definition b64char (n : N) : ascii :=
  default "="%char (String.get (N.to_nat n) base64_alphabet).

(** [btoa] on a binary string (RFC 4648, section 4): every 24-bit input
    group yields four characters; a final group of one or two bytes is
    padded with [=]. A Rocq [ascii] is exactly one code unit in 0..255. *)
Fixpoint btoa (s : string) : string :=
  match s with
  | EmptyString => EmptyString
  | String a EmptyString =>
      let n := (N_of_ascii a * 65536)%N in
      String (b64char (n / 262144 mod 64))
        (String (b64char (n / 4096 mod 64)) "==")
  | String a (String b EmptyString) =>
      let n := (N_of_ascii a * 65536 + N_of_ascii b * 256)%N in
      String (b64char (n / 262144 mod 64))
        (String (b64char (n / 4096 mod 64))
           (String (b64char (n / 64 mod 64)) "="))
  | String a (String b (String c rest)) =>
      let n := (N_of_ascii a * 65536 + N_of_ascii b * 256 + N_of_ascii c)%N in
      String (b64char (n / 262144 mod 64))
        (String (b64char (n / 4096 mod 64))
           (String (b64char (n / 64 mod 64))
              (String (b64char (n mod 64)) (btoa rest))))
  end.

(** [s.replace(/c/g, d)] for a one-character pattern and replacement. *)
Fixpoint replace_char (c d : ascii) (s : string) : string :=
  match s with
  | EmptyString => EmptyString
  | String x rest =>
      String (if Ascii.eqb x c then d else x) (replace_char c d rest)
  end.

(** [s.replace(/c/g, "")]. *)
Fixpoint remove_char (c : ascii) (s : string) : string :=
  match s with
  | EmptyString => EmptyString
  | String x rest =>
      if Ascii.eqb x c then remove_char c rest
      else String x (remove_char c rest)
  end.

(** [String.fromCharCode(...buffer)] for a [Uint8Array] short enough to be
    spread into an argument list, as the 32-byte buffers of the two callers
    are; on a very large buffer the spread itself throws a [RangeError]. *)
Definition fromCharCode (buffer : list Byte.byte) : string :=
  string_of_list_byte buffer.

Definition base64UrlEncode (buffer : list Byte.byte) : string :=
  let base64 := btoa (fromCharCode buffer) in
  remove_char "=" (replace_char "/" "_" (replace_char "+" "-" base64)).

(** The two primitives of the Web Crypto API that the module calls:
    [crypto.getRandomValues] (the n-th byte it hands out) and
    [crypto.subtle.digest("SHA-256", _)]. *)
Record Crypto := {
  entropy : nat -> Byte.byte;
  sha256 : list Byte.byte -> list Byte.byte
}.

(** [crypto.getRandomValues(new Uint8Array(n))]. *)
Definition getRandomValues (cr : Crypto) (n : nat) : list Byte.byte :=
  List.map (entropy cr) (seq 0 n).

Definition generateCodeVerifier (cr : Crypto) : string :=
  let array := getRandomValues cr 32 in
  base64UrlEncode array.

(** [new TextEncoder().encode(verifier)]: the verifier is ASCII, so its
    UTF-8 encoding is its list of code units. *)
Definition encode (s : string) : list Byte.byte :=
  list_byte_of_string s.

Definition generateCodeChallenge (cr : Crypto) (verifier : string) : string :=
  let data := encode verifier in
  let hash := sha256 cr data in
  base64UrlEncode hash.

(** What the two character replacements of [base64UrlEncode] do to one
    character. *)
Definition url_char (x : ascii) : ascii :=
  let y := if Ascii.eqb x "+" then "-"%char else x in
  if Ascii.eqb y "/" then "_"%char else y.

(** The three replacements of [base64UrlEncode] on an encoded string. *)
Definition url_encode_tail (s : string) : string :=
  remove_char "=" (replace_char "/" "_" (replace_char "+" "-" s)).

(** The set [[A-Za-z0-9-._~]]. *)
Definition unreserved (c : ascii) : bool :=
  let n := N_of_ascii c in
  ((65 <=? n) && (n <=? 90) || (97 <=? n) && (n <=? 122)
   || (48 <=? n) && (n <=? 57)
   || (n =? 45) || (n =? 46) || (n =? 95) || (n =? 126))%N.

Fixpoint forall_chars (p : ascii -> bool) (s : string) : bool :=
  match s with
  | EmptyString => true
  | String c rest => p c && forall_chars p rest
  end.

End Pkce.


(** ** constants.ts *)

Module Constants.

Inductive environment := production | development.

Definition TREEVIZ_OAUTH_URLS (e : environment) : string :=
  match e with
  | production => "https://treeviz.com"
  | development => "https://dev.treeviz.com"
  end.

Definition TREEVIZ_OAUTH_CALLBACK_PATH : string := "/oauth/callback".

Definition DEFAULT_OAUTH_SCOPES : list string := ["email"; "profile"].

End Constants.

(** ** api.ts: the backend exchange helper *)

Module Api.
Import JS.

(** The arguments of one [fetch] call; [req_body] is the value handed to
    [JSON.stringify]. *)
Record request := {
  req_url : string;
  req_method : string;
  req_headers : list (string * string);
  req_body : value
}.

(** What the helper reads of a [Response]: its status, its body as
    [response.text()] gives it and as [response.json()] parses it ([None]
    when the body is not JSON). *)
Record response := {
  status : Z;
  text : string;
  json : option value
}.

(** [response.ok]. *)
Definition ok (r : response) : bool :=
  ((200 <=? status r) && (status r <=? 299))%Z.

(** How the promise returned by [fetch] settles. *)
Inductive fetch_outcome :=
| NetFail (e : exn)
| NetResponse (r : response).

(** An [async] function body that suspends on [fetch]: it has returned, it
    has thrown, or it waits for the network with a continuation. *)
Inductive async (A : Type) :=
| Ret (a : A)
| Fail (e : exn)
| Fetch (req : request) (k : fetch_outcome -> async A).
Arguments Ret {A} a.
Arguments Fail {A} e.
Arguments Fetch {A} req k.

Fixpoint abind {A B} (m : async A) (f : A -> async B) : async B :=
  match m with
  | Ret a => f a
  | Fail e => Fail e
  | Fetch req k => Fetch req (fun o => abind (k o) f)
  end.

Notation "'await' x <- m ; k" := (abind m (fun x => k))
  (at level 10, x name, m at level 100, k at level 200).

Definition lift {A} (r : result A) : async A :=
  match r with
  | Ok a => Ret a
  | Throw e => Fail e
  end.

Definition exchange_request (exchangeUrl : string) (code : value)
    (codeVerifier : string) : request :=
  {| req_url := exchangeUrl;
     req_method := "POST";
     req_headers := [("Content-Type", "application/json")];
     req_body :=
       VObj [("data", VObj [("code", code);
                            ("codeVerifier", VStr codeVerifier)])] |}.

(** The part of [exchangeCodeWithBackend] that runs once [fetch] settled. *)
Definition exchange_response (o : fetch_outcome) : result value :=
  match o with
  | NetFail e => Throw e
  | NetResponse response =>
      if negb (ok response) then
        Throw (JsError "Error"
                 ("Backend token exchange failed ("
                  +:+ pretty (status response) +:+ "): " +:+ text response))
      else
        match json response with
        | None => Throw (JsError "SyntaxError" "Unexpected token in JSON")
        | Some result =>
            bind (get result "result") (fun inner =>
              if negb (truthy inner) then
                Throw (JsError "Error"
                         "Invalid response from backend exchange endpoint")
              else Ok inner)
        end
  end.

(** [code] is typed [string], but the client passes [event.data.code] as it
    arrived, so any value is admitted here. *)
Definition exchangeCodeWithBackend (exchangeUrl : string) (code : value)
    (codeVerifier : string) : async value :=
  Fetch (exchange_request exchangeUrl code codeVerifier)
        (fun o => lift (exchange_response o)).

(** Running an [async] body against a network that answers the n-th request
    it sees: the requests issued, in order, and how the body ends. *)
Fixpoint run_from {A} (net : nat -> request -> fetch_outcome) (n : nat)
    (m : async A) : list request * result A :=
  match m with
  | Ret a => ([], Ok a)
  | Fail e => ([], Throw e)
  | Fetch req k =>
      let '(log, res) := run_from net (S n) (k (net n req)) in
      (req :: log, res)
  end.

Definition run {A} (net : nat -> request -> fetch_outcome) (m : async A)
    : list request * result A :=
  run_from net 0 m.

End Api.

(** ** types.ts *)

Module Types.
Import JS.

(** [TreeVizAuthResult]; the fields hold whatever the message or the backend
    supplied. *)
Record TreeVizAuthResult := {
  token : value;
  uid : value;
  email : value;
  displayName : value;
  photoURL : value
}.

Definition TREEVIZ_AUTH_SUCCESS : string := "TREEVIZ_AUTH_SUCCESS".
Definition TREEVIZ_AUTH_ERROR : string := "TREEVIZ_AUTH_ERROR".

End Types.

(** ** The page: listener, timer, popup, promise, storage *)

Module Dom.
Import JS Api Types.

Inductive popup_state := NoPopup | PopupOpen | PopupClosed.

Inductive promise_state :=
| Pending
| Resolved (r : TreeVizAuthResult)
| Rejected (e : exn).

(** The calls one [signIn] invocation makes on the page, as they happen. *)
Inductive effect :=
| EStorageSet (key val : string)
| EOpen (base : string) (params : list (string * string)) (width height : Z)
| EAddListener
| ERemoveListener
| ESetInterval
| EClearInterval
| EPopupClose
| EFetch (req : request)
| EResolve (r : TreeVizAuthResult)
| EReject (e : exn).

(** The state one invocation owns or touches. [trace] lists the effects,
    newest first. [awaiting] is the handler suspended on [fetch]. *)
Record world := {
  listener : bool;
  interval : bool;
  popup : popup_state;
  promise : promise_state;
  awaiting : option (fetch_outcome -> async TreeVizAuthResult);
  sessionStorage : gmap string string;
  trace : list effect
}.

(** What the page offers to one invocation. The position of the popup
    ([left], [top]) is floating-point arithmetic on the screen size that
    nothing branches on; it is left out of [EOpen]. *)
Record Browser := {
  origin : string;
  crypto : Pkce.Crypto;
  popup_blocked : bool;
  storage : gmap string string
}.

Definition init (b : Browser) : world :=
  {| listener := false; interval := false; popup := NoPopup;
     promise := Pending; awaiting := None;
     sessionStorage := storage b; trace := [] |}.

Definition emit (e : effect) (w : world) : world :=
  {| listener := listener w; interval := interval w; popup := popup w;
     promise := promise w; awaiting := awaiting w;
     sessionStorage := sessionStorage w; trace := e :: trace w |}.

Definition setItem (k v : string) (w : world) : world :=
  emit (EStorageSet k v)
    {| listener := listener w; interval := interval w; popup := popup w;
       promise := promise w; awaiting := awaiting w;
       sessionStorage := <[k := v]> (sessionStorage w); trace := trace w |}.

(** [window.open]: the call is made either way; a popup exists afterwards
    unless the browser blocked it. *)
Definition open (base : string) (params : list (string * string))
    (width height : Z) (blocked : bool) (w : world) : world :=
  emit (EOpen base params width height)
    {| listener := listener w; interval := interval w;
       popup := if blocked then popup w else PopupOpen;
       promise := promise w; awaiting := awaiting w;
       sessionStorage := sessionStorage w; trace := trace w |}.

Definition set_listener (on : bool) (w : world) : world :=
  {| listener := on; interval := interval w; popup := popup w;
     promise := promise w; awaiting := awaiting w;
     sessionStorage := sessionStorage w; trace := trace w |}.

Definition set_interval (on : bool) (w : world) : world :=
  {| listener := listener w; interval := on; popup := popup w;
     promise := promise w; awaiting := awaiting w;
     sessionStorage := sessionStorage w; trace := trace w |}.

Definition addEventListener (w : world) : world :=
  emit EAddListener (set_listener true w).

Definition removeEventListener (w : world) : world :=
  emit ERemoveListener (set_listener false w).

Definition setInterval (w : world) : world :=
  emit ESetInterval (set_interval true w).

Definition clearInterval (w : world) : world :=
  emit EClearInterval (set_interval false w).

(** [popup.close()]. *)
Definition close (w : world) : world :=
  emit EPopupClose
    {| listener := listener w; interval := interval w;
       popup := match popup w with NoPopup => NoPopup | _ => PopupClosed end;
       promise := promise w; awaiting := awaiting w;
       sessionStorage := sessionStorage w; trace := trace w |}.

(** [popup.closed]. *)
Definition closed (w : world) : bool :=
  match popup w with
  | PopupClosed => true
  | _ => false
  end.

(** The user closes the popup window. *)
Definition user_closes (w : world) : world :=
  {| listener := listener w; interval := interval w;
     popup := match popup w with NoPopup => NoPopup | _ => PopupClosed end;
     promise := promise w; awaiting := awaiting w;
     sessionStorage := sessionStorage w; trace := trace w |}.

(** A promise settles once; later calls of [resolve] or [reject] are
    performed but leave its state alone. *)
Definition settle (p : promise_state) (w : world) : world :=
  {| listener := listener w; interval := interval w; popup := popup w;
     promise := match promise w with Pending => p | settled => settled end;
     awaiting := awaiting w;
     sessionStorage := sessionStorage w; trace := trace w |}.

Definition resolve (r : TreeVizAuthResult) (w : world) : world :=
  emit (EResolve r) (settle (Resolved r) w).

Definition reject (e : exn) (w : world) : world :=
  emit (EReject e) (settle (Rejected e) w).

Definition set_awaiting
    (k : option (fetch_outcome -> async TreeVizAuthResult)) (w : world)
    : world :=
  {| listener := listener w; interval := interval w; popup := popup w;
     promise := promise w; awaiting := k;
     sessionStorage := sessionStorage w; trace := trace w |}.

(** What the event loop delivers to one invocation. *)
Inductive event :=
| EvMessage (data : value)
| EvTick
| EvUserClosesPopup
| EvFetchSettles (o : fetch_outcome).

Definition is_settle (e : effect) : bool :=
  match e with
  | EResolve _ | EReject _ => true
  | _ => false
  end.

Definition effect_is (e e' : effect) : bool :=
  match e, e' with
  | EAddListener, EAddListener
  | ERemoveListener, ERemoveListener
  | ESetInterval, ESetInterval
  | EClearInterval, EClearInterval
  | EPopupClose, EPopupClose => true
  | _, _ => false
  end.

Definition occurs (e : effect) (t : list effect) : bool :=
  existsb (effect_is e) t.

(** Number of calls of [resolve] or [reject] in a trace. *)
Definition settlements (t : list effect) : nat :=
  List.length (List.filter is_settle t).

(** On a trace (newest first): every call of [resolve] or [reject] comes
    after a [removeEventListener] and a [clearInterval]. *)
Fixpoint teardown_precedes_settle (t : list effect) : bool :=
  match t with
  | [] => true
  | e :: earlier =>
      (if is_settle e
       then occurs ERemoveListener earlier && occurs EClearInterval earlier
       else true)
      && teardown_precedes_settle earlier
  end.

Definition is_pending (w : world) : bool :=
  match promise w with
  | Pending => true
  | _ => false
  end.

(** The phases of an invocation whose popup opened. *)

(** Listener removed and timer cleared, both recorded in the trace. *)
Definition torn_down (w : world) : Prop :=
  listener w = false /\ interval w = false
  /\ occurs ERemoveListener (trace w) = true
  /\ occurs EClearInterval (trace w) = true
  /\ teardown_precedes_settle (trace w) = true.

(** Waiting for the user: listener and timer registered, nothing settled. *)
Definition awaiting_user (w : world) : Prop :=
  listener w = true /\ interval w = true
  /\ promise w = Pending /\ awaiting w = None
  /\ settlements (trace w) = 0%nat
  /\ teardown_precedes_settle (trace w) = true.

(** Torn down, suspended on the exchange request. *)
Definition exchanging (w : world) : Prop :=
  torn_down w /\ promise w = Pending /\ is_Some (awaiting w)
  /\ settlements (trace w) = 0%nat.

(** Torn down and settled by exactly one call. *)
Definition settled (w : world) : Prop :=
  torn_down w /\ is_pending w = false /\ awaiting w = None
  /\ settlements (trace w) = 1%nat.

Definition in_flight (w : world) : Prop :=
  awaiting_user w \/ exchanging w \/ settled w.

End Dom.


(** ** client.ts, current revision: PKCE and client-secret modes *)

Module Client.
Import JS Api Types Dom.

Record TreeVizOAuthConfig := {
  cfg_environment : option Constants.environment;
  cfg_appId : string;
  cfg_appSecret : option string;
  cfg_scopes : option (list string);
  cfg_popupWidth : option Z;
  cfg_popupHeight : option Z;
  cfg_usePKCE : option bool;
  cfg_exchangeTokenUrl : option string
}.

Record TreeVizOAuth := {
  appId : string;
  appSecret : option string;
  scopes : list string;
  popupWidth : Z;
  popupHeight : Z;
  usePKCE : bool;
  exchangeTokenUrl : option string;
  environment : Constants.environment
}.

(** [!s] for an optional string: [undefined] and the empty string. *)
Definition missing (s : option string) : bool :=
  match s with
  | None => true
  | Some s => String.eqb s ""
  end.

(** [n || d] for an optional number. *)
Definition number_or (n : option Z) (d : Z) : Z :=
  match n with
  | Some n => if (n =? 0)%Z then d else n
  | None => d
  end.

Definition constructor (config : TreeVizOAuthConfig) : result TreeVizOAuth :=
  if String.eqb (cfg_appId config) "" then
    Throw (JsError "Error" "TreeViz OAuth: appId is required")
  else
    let usePKCE := match cfg_usePKCE config with
                   | Some false => false
                   | _ => true
                   end in
    if negb usePKCE && missing (cfg_appSecret config) then
      Throw (JsError "Error"
               "TreeViz OAuth: appSecret is required when usePKCE is false")
    else if usePKCE && missing (cfg_exchangeTokenUrl config) then
      Throw (JsError "Error"
               "TreeViz OAuth: exchangeTokenUrl is required when using PKCE flow")
    else
      Ok {| appId := cfg_appId config;
            appSecret := cfg_appSecret config;
            scopes := default Constants.DEFAULT_OAUTH_SCOPES (cfg_scopes config);
            popupWidth := number_or (cfg_popupWidth config) 600;
            popupHeight := number_or (cfg_popupHeight config) 700;
            usePKCE := usePKCE;
            exchangeTokenUrl := cfg_exchangeTokenUrl config;
            environment := default Constants.production (cfg_environment config) |}.

(** The configuration with another [appSecret]. *)
Definition with_appSecret (secret : option string)
    (config : TreeVizOAuthConfig) : TreeVizOAuthConfig :=
  {| cfg_environment := cfg_environment config;
     cfg_appId := cfg_appId config;
     cfg_appSecret := secret;
     cfg_scopes := cfg_scopes config;
     cfg_popupWidth := cfg_popupWidth config;
     cfg_popupHeight := cfg_popupHeight config;
     cfg_usePKCE := cfg_usePKCE config;
     cfg_exchangeTokenUrl := cfg_exchangeTokenUrl config |}.

Definition getAuthUrl (this : TreeVizOAuth) : string :=
  Constants.TREEVIZ_OAUTH_URLS (environment this).

(** The local [codeVerifier] of one [signIn] invocation. *)
Definition codeVerifier (this : TreeVizOAuth) (b : Browser) : option string :=
  if usePKCE this then Some (Pkce.generateCodeVerifier (crypto b)) else None.

Definition codeChallenge (b : Browser) : string :=
  Pkce.generateCodeChallenge (crypto b) (Pkce.generateCodeVerifier (crypto b)).

(** An absent string written into a [Record<string, string>] or handed to
    [fetch] is rendered as ["undefined"]. *)
Definition authParams (this : TreeVizOAuth) (b : Browser)
    : list (string * string) :=
  [("appId", appId this);
   ("origin", origin b);
   ("callbackUri", origin b +:+ "/auth/callback");
   ("scope", join " " (scopes this))]
  ++ (if usePKCE this
      then [("code_challenge", codeChallenge b);
            ("code_challenge_method", "S256")]
      else [("appSecret", default "undefined" (appSecret this))]).

Definition popup_blocked_error : exn :=
  JsError "Error" "Popup blocked. Please allow popups for this site.".

(** [signIn] up to the point where the promise executor returns. *)
Definition signIn (this : TreeVizOAuth) (b : Browser) : world :=
  let w :=
    if usePKCE this then
      setItem "pkce_code_challenge" (codeChallenge b)
        (setItem "pkce_code_verifier"
           (Pkce.generateCodeVerifier (crypto b)) (init b))
    else init b in
  let w :=
    open (getAuthUrl this +:+ Constants.TREEVIZ_OAUTH_CALLBACK_PATH)
      (authParams this b) (popupWidth this) (popupHeight this)
      (popup_blocked b) w in
  if popup_blocked b then reject popup_blocked_error w
  else setInterval (addEventListener w).

(** [codeVerifier] as a condition. *)
Definition verifier_truthy (cv : option string) : bool :=
  negb (missing cv).

(** [this.usePKCE && event.data.code && codeVerifier]. *)
Definition pkce_condition (this : TreeVizOAuth) (cv : option string)
    (data : value) : result bool :=
  if usePKCE this then
    do code <- get data "code";
    Ok (truthy code && verifier_truthy cv)
  else Ok false.

(** [!this.usePKCE && event.data.token && event.data.uid]. *)
Definition legacy_condition (this : TreeVizOAuth) (data : value)
    : result bool :=
  if negb (usePKCE this) then
    do token <- get data "token";
    if truthy token then
      do uid <- get data "uid";
      Ok (truthy uid)
    else Ok false
  else Ok false.

(** The log line and the object literal built from the exchange result. *)
Definition pkce_result (result : value) : JS.result TreeVizAuthResult :=
  do user <- get result "user";
  do logged <- get user "uid";
  do token <- get result "firebaseToken";
  do uid <- get user "uid";
  do email <- get user "email";
  do displayName <- get user "displayName";
  do photoURL <- get user "photoURL";
  Ok {| token := token; uid := uid; email := email;
        displayName := displayName; photoURL := photoURL |}.

Definition legacy_result (data : value) : JS.result TreeVizAuthResult :=
  do token <- get data "token";
  do uid <- get data "uid";
  do email <- get data "email";
  do displayName <- get data "displayName";
  do photoURL <- get data "photoURL";
  Ok {| token := token; uid := uid;
        email := or_else email VNull;
        displayName := or_else displayName VNull;
        photoURL := or_else photoURL VNull |}.

(** The body of the [try] block of the success branch. *)
Definition try_block (this : TreeVizOAuth) (cv : option string)
    (data : value) : async TreeVizAuthResult :=
  await pkce <- lift (pkce_condition this cv data);
  if (pkce : bool) then
    await code <- lift (get data "code");
    await result <-
      exchangeCodeWithBackend (default "undefined" (exchangeTokenUrl this))
        code (default "" cv);
    lift (pkce_result result)
  else
    await legacy <- lift (legacy_condition this data);
    if (legacy : bool) then lift (legacy_result data)
    else Fail (JsError "Error" "Invalid authentication response").

(** Running the [try] block up to its next suspension, with the [catch]
    clause around it. *)
Definition drive (m : async TreeVizAuthResult) (w : world) : world :=
  match m with
  | Ret r => resolve r w
  | Fail e =>
      reject (if instanceof_Error e then e
              else JsError "Error" "Token exchange failed") w
  | Fetch req k => set_awaiting (Some k) (emit (EFetch req) w)
  end.

(** One run of [messageHandler] up to its first suspension: the page
    afterwards, and the exception that left the handler, if any. *)
Definition messageHandler (this : TreeVizOAuth) (cv : option string)
    (data : value) (w : world) : world * option exn :=
  if negb (truthy data) then (w, None)
  else
    match get data "type" with
    | Throw e => (w, Some e)
    | Ok type =>
        if negb (truthy type) then (w, None)
        else if negb (is_str type TREEVIZ_AUTH_SUCCESS)
                && negb (is_str type TREEVIZ_AUTH_ERROR) then (w, None)
        else if is_str type TREEVIZ_AUTH_SUCCESS then
          let w := close (clearInterval (removeEventListener w)) in
          (drive (try_block this cv data) w, None)
        else if is_str type TREEVIZ_AUTH_ERROR then
          match get data "error" with
          | Throw e => (w, Some e)
          | Ok error =>
              let w := close (clearInterval (removeEventListener w)) in
              (reject
                 (JsError "Error"
                    (to_string
                       (or_else error (VStr "TreeViz authentication failed"))))
                 w, None)
          end
        else (w, None)
    end.

(** The callback of [setInterval]. *)
Definition checkClosed (w : world) : world :=
  if closed w then
    reject (JsError "Error" "authError.authenticationCancelled")
      (removeEventListener (clearInterval w))
  else w.

(** The event loop hands an event to the invocation: a message reaches the
    handler only while it is registered, a tick only while the timer runs,
    a settled [fetch] resumes the suspended handler. *)
Definition step (this : TreeVizOAuth) (cv : option string) (w : world)
    (ev : event) : world :=
  match ev with
  | EvMessage data =>
      if listener w then fst (messageHandler this cv data w) else w
  | EvTick => if interval w then checkClosed w else w
  | EvUserClosesPopup => user_closes w
  | EvFetchSettles o =>
      match awaiting w with
      | Some k => drive (k o) (set_awaiting None w)
      | None => w
      end
  end.

Definition run (this : TreeVizOAuth) (b : Browser) (evs : list event)
    : world :=
  fold_left (step this (codeVerifier this b)) evs (signIn this b).

Definition environment_name (e : Constants.environment) : string :=
  match e with
  | Constants.production => "production"
  | Constants.development => "development"
  end.

Definition getConfig (this : TreeVizOAuth) : value :=
  VObj [("environment", VStr (environment_name (environment this)));
        ("appId", VStr (appId this));
        ("scopes", VArr (List.map VStr (scopes this)));
        ("popupWidth", VNum (popupWidth this));
        ("popupHeight", VNum (popupHeight this));
        ("usePKCE", VBool (usePKCE this));
        ("exchangeTokenUrl", VStr (default "" (exchangeTokenUrl this)))].

End Client.


(** ** client.ts, first revision: client secret only *)

Module LegacyClient.
Import JS Api Types Dom.

Record TreeVizOAuthConfig := {
  cfg_authUrl : string;
  cfg_appId : string;
  cfg_appSecret : string;
  cfg_scopes : option (list string);
  cfg_callbackPath : option string;
  cfg_popupWidth : option Z;
  cfg_popupHeight : option Z
}.

(** [this.config]. *)
Record TreeVizOAuth := {
  authUrl : string;
  appId : string;
  appSecret : string;
  scopes : list string;
  callbackPath : string;
  popupWidth : Z;
  popupHeight : Z
}.

(** [s.replace(/\/$/, "")]. *)
Fixpoint strip_trailing_slash (s : string) : string :=
  match s with
  | EmptyString => EmptyString
  | String c EmptyString => if Ascii.eqb c "/" then EmptyString else s
  | String c rest => String c (strip_trailing_slash rest)
  end.

Definition constructor (config : TreeVizOAuthConfig) : result TreeVizOAuth :=
  if String.eqb (cfg_authUrl config) "" then
    Throw (JsError "Error" "TreeViz OAuth: authUrl is required")
  else if String.eqb (cfg_appId config) "" then
    Throw (JsError "Error" "TreeViz OAuth: appId is required")
  else if String.eqb (cfg_appSecret config) "" then
    Throw (JsError "Error" "TreeViz OAuth: appSecret is required")
  else
    Ok {| authUrl := strip_trailing_slash (cfg_authUrl config);
          appId := cfg_appId config;
          appSecret := cfg_appSecret config;
          scopes := default ["email"; "profile"] (cfg_scopes config);
          callbackPath :=
            (if Client.missing (cfg_callbackPath config) then "/oauth/callback"
             else default "" (cfg_callbackPath config));
          popupWidth := Client.number_or (cfg_popupWidth config) 600;
          popupHeight := Client.number_or (cfg_popupHeight config) 700 |}.

(** The configuration with another [appSecret]. *)
Definition with_appSecret (secret : string) (config : TreeVizOAuthConfig)
    : TreeVizOAuthConfig :=
  {| cfg_authUrl := cfg_authUrl config;
     cfg_appId := cfg_appId config;
     cfg_appSecret := secret;
     cfg_scopes := cfg_scopes config;
     cfg_callbackPath := cfg_callbackPath config;
     cfg_popupWidth := cfg_popupWidth config;
     cfg_popupHeight := cfg_popupHeight config |}.

Definition authParams (this : TreeVizOAuth) (b : Browser)
    : list (string * string) :=
  [("appId", appId this);
   ("appSecret", appSecret this);
   ("callbackUri", origin b +:+ "/auth/callback");
   ("scope", join " " (scopes this))].

Definition signIn (this : TreeVizOAuth) (b : Browser) : world :=
  let w :=
    open (authUrl this +:+ callbackPath this) (authParams this b)
      (popupWidth this) (popupHeight this) (popup_blocked b) (init b) in
  if popup_blocked b then
    reject (JsError "Error" "Popup blocked. Please allow popups for this site.")
      w
  else setInterval (addEventListener w).

Definition success_result (data : value) : JS.result TreeVizAuthResult :=
  do token <- get data "token";
  do uid <- get data "uid";
  do email <- get data "email";
  do displayName <- get data "displayName";
  do photoURL <- get data "photoURL";
  Ok {| token := token; uid := uid; email := email;
        displayName := displayName; photoURL := photoURL |}.

(** One run of [messageHandler]: the page afterwards, and the exception
    that left the handler, if any. The handler starts by logging
    [event.data.type]. *)
Definition messageHandler (data : value) (w : world) : world * option exn :=
  match get data "type" with
  | Throw e => (w, Some e)
  | Ok type =>
      if is_str type TREEVIZ_AUTH_SUCCESS then
        let w := close (removeEventListener w) in
        match success_result data with
        | Throw e => (w, Some e)
        | Ok r => (resolve r w, None)
        end
      else if is_str type TREEVIZ_AUTH_ERROR then
        match get data "error" with
        | Throw e => (w, Some e)
        | Ok error =>
            let w := close (removeEventListener w) in
            (reject
               (JsError "Error"
                  (to_string
                     (or_else error (VStr "TreeViz authentication failed"))))
               w, None)
        end
      else (w, None)
  end.

Definition checkClosed (w : world) : world :=
  if closed w then
    reject (JsError "Error" "Authentication cancelled")
      (removeEventListener (clearInterval w))
  else w.

Definition step (w : world) (ev : event) : world :=
  match ev with
  | EvMessage data => if listener w then fst (messageHandler data w) else w
  | EvTick => if interval w then checkClosed w else w
  | EvUserClosesPopup => user_closes w
  | EvFetchSettles _ => w
  end.

Definition run (this : TreeVizOAuth) (b : Browser) (evs : list event)
    : world :=
  fold_left step evs (signIn this b).

Definition getConfig (this : TreeVizOAuth) : value :=
  VObj [("authUrl", VStr (authUrl this));
        ("appId", VStr (appId this));
        ("scopes", VArr (List.map VStr (scopes this)));
        ("callbackPath", VStr (callbackPath this));
        ("popupWidth", VNum (popupWidth this));
        ("popupHeight", VNum (popupHeight this))].

End LegacyClient.


(** ** Sample configurations, pages and messages *)

Module Scenario.
Import JS Api Types Dom.

Definition client_secret_config : Client.TreeVizOAuthConfig :=
  {| Client.cfg_environment := None; Client.cfg_appId := "your-app-id";
     Client.cfg_appSecret := None; Client.cfg_scopes := None;
     Client.cfg_popupWidth := None; Client.cfg_popupHeight := None;
     Client.cfg_usePKCE := Some false;
     Client.cfg_exchangeTokenUrl := None |}.

(** A network whose first answer is [fail] and every later answer [good]. *)
Definition flaky (fail good : fetch_outcome) : nat -> request -> fetch_outcome :=
  fun n _ => match n with O => fail | S _ => good end.

Definition envelope (status : Z) (body : value) : fetch_outcome :=
  NetResponse {| status := status; text := ""; json := Some body |}.

(** A client in PKCE mode, as the constructor builds it from
    [{appId, exchangeTokenUrl}]. *)
Definition pkce_client : Client.TreeVizOAuth :=
  {| Client.appId := "your-app-id"; Client.appSecret := None;
     Client.scopes := ["email"; "profile"];
     Client.popupWidth := 600; Client.popupHeight := 700;
     Client.usePKCE := true;
     Client.exchangeTokenUrl := Some "https://api.example.com/exchange";
     Client.environment := Constants.production |}.

(** A client of the first revision. *)
Definition legacy_client : LegacyClient.TreeVizOAuth :=
  {| LegacyClient.authUrl := "https://family-tree-a31ba.web.app";
     LegacyClient.appId := "your-app-id";
     LegacyClient.appSecret := "your-app-secret";
     LegacyClient.scopes := ["email"; "profile"];
     LegacyClient.callbackPath := "/oauth/callback";
     LegacyClient.popupWidth := 600; LegacyClient.popupHeight := 700 |}.

(** A page whose random source hands out zero bytes and whose digest is
    constant; [blocked] tells whether popups are refused. *)
Definition page (blocked : bool) : Browser :=
  {| origin := "https://app.example.com";
     crypto := {| Pkce.entropy := fun _ => Byte.x00;
                  Pkce.sha256 := fun _ => repeat Byte.x00 32 |};
     popup_blocked := blocked;
     storage := ∅ |}.

(** [{type: "TREEVIZ_AUTH_SUCCESS", code: "abc"}]. *)
Definition code_message : value :=
  VObj [("type", VStr "TREEVIZ_AUTH_SUCCESS"); ("code", VStr "abc")].

(** [{type: "TREEVIZ_AUTH_SUCCESS", token: "T", uid: "U", email: null,
    displayName: null, photoURL: null}]. *)
Definition token_message : value :=
  VObj [("type", VStr "TREEVIZ_AUTH_SUCCESS"); ("token", VStr "T");
        ("uid", VStr "U"); ("email", VNull); ("displayName", VNull);
        ("photoURL", VNull)].

(** [{result: {firebaseToken: "T", user: {uid: "U", email: "e@x.com",
    displayName: "D", photoURL: null}}}]. *)
Definition backend_body : value :=
  VObj [("result",
         VObj [("firebaseToken", VStr "T");
               ("user", VObj [("uid", VStr "U"); ("email", VStr "e@x.com");
                              ("displayName", VStr "D");
                              ("photoURL", VNull)])])].

Definition backend_answer (status : Z) (text : string) : fetch_outcome :=
  NetResponse {| status := status; text := text; json := Some backend_body |}.

(** [{token: "T", uid: "U", email: "e@x.com", displayName: "D",
    photoURL: null}]. *)
Definition expected_result : TreeVizAuthResult :=
  {| token := VStr "T"; uid := VStr "U"; email := VStr "e@x.com";
     displayName := VStr "D"; photoURL := VNull |}.

End Scenario.


(** ** constants.ts and api.ts: the provider's own endpoints *)

Module Sdk.
Import JS Api.

Definition TREEVIZ_TOKEN_ENDPOINTS (e : Constants.environment) : string :=
  match e with
  | Constants.production => "https://treeviz.com/api/oauth/token"
  | Constants.development =>
      "https://europe-west1-family-tree-a31ba.cloudfunctions.net/oauth_token"
  end.

Definition TREEVIZ_AUTHORIZE_ENDPOINTS (e : Constants.environment) : string :=
  match e with
  | Constants.production => "https://treeviz.com/api/oauth/authorize"
  | Constants.development =>
      "https://europe-west1-family-tree-a31ba.cloudfunctions.net/oauth_authorize"
  end.

Record TokenExchangeRequest := {
  ter_appId : string;
  ter_appSecret : option string;
  ter_code : string;
  ter_codeVerifier : string
}.

Inductive challenge_method := S256 | plain.

Definition method_name (m : challenge_method) : string :=
  match m with
  | S256 => "S256"
  | plain => "plain"
  end.

Record AuthorizationRequest := {
  ar_appId : string;
  ar_uid : string;
  ar_codeChallenge : string;
  ar_codeChallengeMethod : challenge_method
}.

(** The object that [JSON.stringify] writes for a [TokenExchangeRequest]:
    a property whose value is [undefined] is left out. *)
Definition token_params (params : TokenExchangeRequest) : value :=
  VObj ([("appId", VStr (ter_appId params))]
        ++ match ter_appSecret params with
           | Some secret => [("appSecret", VStr secret)]
           | None => []
           end
        ++ [("code", VStr (ter_code params));
            ("codeVerifier", VStr (ter_codeVerifier params))]).

Definition authorization_params (params : AuthorizationRequest) : value :=
  VObj [("appId", VStr (ar_appId params));
        ("uid", VStr (ar_uid params));
        ("codeChallenge", VStr (ar_codeChallenge params));
        ("codeChallengeMethod",
         VStr (method_name (ar_codeChallengeMethod params)))].

Definition post (endpoint : string) (data : value) : request :=
  {| req_url := endpoint;
     req_method := "POST";
     req_headers := [("Content-Type", "application/json")];
     req_body := VObj [("data", data)] |}.

(** What follows the [fetch] in [exchangeAuthorizationCode]. *)
Definition token_response (o : fetch_outcome) : result value :=
  match o with
  | NetFail e => Throw e
  | NetResponse response =>
      if negb (ok response) then
        Throw (JsError "Error"
                 ("TreeViz token exchange failed ("
                  +:+ pretty (status response) +:+ "): " +:+ text response))
      else
        match json response with
        | None => Throw (JsError "SyntaxError" "Unexpected token in JSON")
        | Some result =>
            do inner <- get result "result";
            if negb (truthy inner) then
              Throw (JsError "Error"
                       "Invalid response from TreeViz token endpoint")
            else Ok inner
        end
  end.

(** [environment] defaults to ["production"] when the argument is left
    out. *)
Definition exchangeAuthorizationCode (params : TokenExchangeRequest)
    (environment : option Constants.environment) : async value :=
  let endpoint :=
    TREEVIZ_TOKEN_ENDPOINTS (default Constants.production environment) in
  Fetch (post endpoint (token_params params))
        (fun o => lift (token_response o)).

(** What follows the [fetch] in [generateAuthorizationCode]. *)
Definition authorize_response (o : fetch_outcome) : result value :=
  match o with
  | NetFail e => Throw e
  | NetResponse response =>
      if negb (ok response) then
        Throw (JsError "Error"
                 ("TreeViz authorization failed ("
                  +:+ pretty (status response) +:+ "): " +:+ text response))
      else
        match json response with
        | None => Throw (JsError "SyntaxError" "Unexpected token in JSON")
        | Some result =>
            do inner <- get result "result";
            if negb (truthy inner) then
              Throw (JsError "Error"
                       "Invalid response from TreeViz authorize endpoint")
            else Ok inner
        end
  end.

Definition generateAuthorizationCode (params : AuthorizationRequest)
    (environment : option Constants.environment) : async value :=
  let endpoint :=
    TREEVIZ_AUTHORIZE_ENDPOINTS (default Constants.production environment) in
  Fetch (post endpoint (authorization_params params))
        (fun o => lift (authorize_response o)).

Record TreeVizOAuthAPIConfig := {
  api_cfg_appId : string;
  api_cfg_appSecret : option string;
  api_cfg_environment : option Constants.environment
}.

Record TreeVizOAuthAPI := {
  api_appId : string;
  api_appSecret : option string;
  api_environment : Constants.environment
}.

(** The SDK constructor validates nothing. *)
Definition constructor (config : TreeVizOAuthAPIConfig) : TreeVizOAuthAPI :=
  {| api_appId := api_cfg_appId config;
     api_appSecret := api_cfg_appSecret config;
     api_environment :=
       default Constants.production (api_cfg_environment config) |}.

Definition exchangeCode (this : TreeVizOAuthAPI) (code codeVerifier : string)
    : async value :=
  exchangeAuthorizationCode
    {| ter_appId := api_appId this;
       ter_appSecret := api_appSecret this;
       ter_code := code;
       ter_codeVerifier := codeVerifier |}
    (Some (api_environment this)).

(** [codeChallengeMethod] defaults to ["S256"]. *)
Definition generateAuthCode (this : TreeVizOAuthAPI) (uid codeChallenge : string)
    (codeChallengeMethod : option challenge_method) : async value :=
  generateAuthorizationCode
    {| ar_appId := api_appId this;
       ar_uid := uid;
       ar_codeChallenge := codeChallenge;
       ar_codeChallengeMethod := default S256 codeChallengeMethod |}
    (Some (api_environment this)).

End Sdk.

(** ** Auxiliary notions for the proofs about the flow and the encoding *)

Module Aux.
Import JS Api Types Dom.

(** The 6-bit group of a character of the URL-safe alphabet. *)
Definition b64index (c : ascii) : N :=
  let n := N_of_ascii c in
  (if (65 <=? n) && (n <=? 90) then n - 65
   else if (97 <=? n) && (n <=? 122) then n - 71
   else if (48 <=? n) && (n <=? 57) then n + 4
   else if n =? 45 then 62
   else if n =? 95 then 63
   else 0)%N.

Definition is_fetch (e : effect) : bool :=
  match e with
  | EFetch _ => true
  | _ => false
  end.

Definition is_open (e : effect) : bool :=
  match e with
  | EOpen _ _ _ _ => true
  | _ => false
  end.

(** Number of [fetch] calls in a trace. *)
Definition fetches (t : list effect) : nat :=
  List.length (List.filter is_fetch t).

(** An [async] body that does not wait for the network (again). *)
Definition final {A} (m : async A) : Prop :=
  match m with
  | Fetch _ _ => False
  | _ => True
  end.

(** At most one exchange per invocation: none while the listener is
    registered, and the suspended handler, once resumed, ends. *)
Definition single_exchange (w : world) : Prop :=
  (fetches (trace w) <= 1)%nat
  /\ (listener w = true -> fetches (trace w) = 0%nat /\ awaiting w = None)
  /\ (forall k, awaiting w = Some k -> forall o, final (k o)).

(** A PKCE configuration that asks for a popup of width [0]. *)
Definition zero_width_config : Client.TreeVizOAuthConfig :=
  {| Client.cfg_environment := None; Client.cfg_appId := "your-app-id";
     Client.cfg_appSecret := None; Client.cfg_scopes := None;
     Client.cfg_popupWidth := Some 0%Z; Client.cfg_popupHeight := None;
     Client.cfg_usePKCE := None;
     Client.cfg_exchangeTokenUrl := Some "https://api.example.com/exchange" |}.

(** A client in client-secret mode, as the constructor builds it from
    [{appId, appSecret, usePKCE: false}]. *)
Definition secret_client : Client.TreeVizOAuth :=
  {| Client.appId := "your-app-id";
     Client.appSecret := Some "your-app-secret";
     Client.scopes := ["email"; "profile"];
     Client.popupWidth := 600; Client.popupHeight := 700;
     Client.usePKCE := false;
     Client.exchangeTokenUrl := None;
     Client.environment := Constants.production |}.

(** A first-revision configuration whose [authUrl] is a lone slash and
    whose [callbackPath] is empty. *)
Definition slash_config : LegacyClient.TreeVizOAuthConfig :=
  {| LegacyClient.cfg_authUrl := "/";
     LegacyClient.cfg_appId := "your-app-id";
     LegacyClient.cfg_appSecret := "your-app-secret";
     LegacyClient.cfg_scopes := None;
     LegacyClient.cfg_callbackPath := Some "";
     LegacyClient.cfg_popupWidth := None;
     LegacyClient.cfg_popupHeight := None |}.

(** [{type: "TREEVIZ_AUTH_ERROR", error}]. *)
Definition error_message (error : value) : value :=
  VObj [("type", VStr TREEVIZ_AUTH_ERROR); ("error", error)].

(** A [TREEVIZ_AUTH_SUCCESS] message with further fields. *)
Definition success_message (fields : list (string * value)) : value :=
  VObj (("type", VStr TREEVIZ_AUTH_SUCCESS) :: fields).

End Aux.

(** * Properties *)

Section PkceFacts.
Import Pkce.

Example btoa_Man : btoa "Man" = "TWFu".
Proof. reflexivity. Qed.

Example btoa_Ma : btoa "Ma" = "TWE=".
Proof. reflexivity. Qed.

Example btoa_M : btoa "M" = "TQ==".
Proof. reflexivity. Qed.

Example base64UrlEncode_url_safe :
  base64UrlEncode [Byte.xfb; Byte.xff; Byte.xfe] = "-__-"
  /\ base64UrlEncode [Byte.xfb] = "-w".
Proof. split; reflexivity. Qed.

Lemma string_ind3 (P : string -> Prop) :
  P EmptyString ->
  (forall a, P (String a EmptyString)) ->
  (forall a b, P (String a (String b EmptyString))) ->
  (forall a b c s, P s -> P (String a (String b (String c s)))) ->
  forall s, P s.
Proof.
  intros H0 H1 H2 H3.
  assert (forall s, P s /\ (forall a, P (String a s))
                    /\ (forall a b, P (String a (String b s)))) as H.
  { induction s as [|c s (IH0 & IH1 & IH2)].
    - repeat split; auto.
    - repeat split; auto. }
  intros s. apply H.
Qed.

Lemma sextet_char_ok (x : N) :
  let c := url_char (b64char (x mod 64)) in
  Ascii.eqb c "=" = false /\ unreserved c = true.
Proof.
  assert (x mod 64 < 64)%N as Hlt by (apply N.mod_lt; lia).
  remember (x mod 64)%N as k eqn:Hk. clear Hk x.
  assert (exists m, k = N.of_nat m /\ (m < 64)%nat) as (m & -> & Hm).
  { exists (N.to_nat k). split; lia. }
  do 64 (destruct m as [|m]; [vm_compute; split; reflexivity|]).
  lia.
Qed.

Lemma url_encode_cons (x : N) (rest : string) :
  url_encode_tail (String (b64char (x mod 64)) rest)
  = String (url_char (b64char (x mod 64))) (url_encode_tail rest).
Proof.
  unfold url_encode_tail. cbn [replace_char remove_char].
  fold (url_char (b64char (x mod 64))).
  destruct (sextet_char_ok x) as [-> _]. reflexivity.
Qed.

Lemma url_encode_shape (s : string) :
  String.length (url_encode_tail (btoa s)) = ((4 * String.length s + 2) / 3)%nat
  /\ forall_chars unreserved (url_encode_tail (btoa s)) = true.
Proof.
  induction s as [|a|a b|a b c s [IHlen IHall]] using string_ind3.
  - split; reflexivity.
  - cbn [btoa]. rewrite !url_encode_cons. cbn [forall_chars String.length].
    destruct (sextet_char_ok (N_of_ascii a * 65536 / 262144)) as [_ ->].
    destruct (sextet_char_ok (N_of_ascii a * 65536 / 4096)) as [_ ->].
    split; reflexivity.
  - cbn [btoa]. rewrite !url_encode_cons. cbn [forall_chars String.length].
    set (n := (N_of_ascii a * 65536 + N_of_ascii b * 256)%N).
    destruct (sextet_char_ok (n / 262144)) as [_ ->].
    destruct (sextet_char_ok (n / 4096)) as [_ ->].
    destruct (sextet_char_ok (n / 64)) as [_ ->].
    split; reflexivity.
  - cbn [btoa]. rewrite !url_encode_cons. cbn [forall_chars String.length].
    set (n := (N_of_ascii a * 65536 + N_of_ascii b * 256 + N_of_ascii c)%N).
    destruct (sextet_char_ok (n / 262144)) as [_ ->].
    destruct (sextet_char_ok (n / 4096)) as [_ ->].
    destruct (sextet_char_ok (n / 64)) as [_ ->].
    destruct (sextet_char_ok n) as [_ ->].
    rewrite IHlen, IHall. split; [|reflexivity].
    replace (4 * S (S (S (String.length s))) + 2)%nat
      with ((4 * String.length s + 2) + 4 * 3)%nat by lia.
    rewrite Nat.div_add by lia. lia.
Qed.

Lemma fromCharCode_length (buffer : list Byte.byte) :
  String.length (fromCharCode buffer) = List.length buffer.
Proof.
  unfold fromCharCode, string_of_list_byte.
  induction buffer as [|x l IH]; [reflexivity|].
  cbn [List.map string_of_list_ascii String.length List.length].
  now rewrite IH.
Qed.

Lemma base64UrlEncode_length (buffer : list Byte.byte) :
  String.length (base64UrlEncode buffer)
  = ((4 * List.length buffer + 2) / 3)%nat.
Proof.
  unfold base64UrlEncode. fold (url_encode_tail (btoa (fromCharCode buffer))).
  rewrite (proj1 (url_encode_shape _)), fromCharCode_length. reflexivity.
Qed.

Lemma base64UrlEncode_alphabet (buffer : list Byte.byte) :
  forall_chars unreserved (base64UrlEncode buffer) = true.
Proof.
  unfold base64UrlEncode. fold (url_encode_tail (btoa (fromCharCode buffer))).
  apply url_encode_shape.
Qed.

Lemma generateCodeVerifier_length (cr : Crypto) :
  String.length (generateCodeVerifier cr) = 43%nat.
Proof.
  unfold generateCodeVerifier, getRandomValues.
  rewrite base64UrlEncode_length, length_map, length_seq. reflexivity.
Qed.

(** C8: every string returned by [generateCodeVerifier] has between 43 and
    128 characters, each of them in [[A-Za-z0-9-._~]]. *)
Theorem generateCodeVerifier_length_and_alphabet (cr : Crypto) :
  (43 <= String.length (generateCodeVerifier cr) <= 128)%nat
  /\ forall_chars unreserved (generateCodeVerifier cr) = true.
Proof.
  split.
  - rewrite generateCodeVerifier_length. lia.
  - apply base64UrlEncode_alphabet.
Qed.

End PkceFacts.

(** ** The constructor *)

Section ConstructorFacts.
Import JS Client.

Lemma constructor_throws_iff (config : TreeVizOAuthConfig) :
  throws (constructor config)
  = String.eqb (cfg_appId config) ""
    || missing (match cfg_usePKCE config with
                | Some false => cfg_appSecret config
                | _ => cfg_exchangeTokenUrl config
                end).
Proof.
  unfold constructor.
  destruct (String.eqb (cfg_appId config) ""); [reflexivity|].
  destruct (cfg_usePKCE config) as [[|]|]; cbn [negb andb orb];
    repeat match goal with
           | |- context [missing ?x] => destruct (missing x)
           end; reflexivity.
Qed.

(** C4: the constructor throws on an empty [appId], on PKCE mode (chosen or
    defaulted) without [exchangeTokenUrl], and on [usePKCE = false] without
    [appSecret]; a configuration that passes the three checks constructs. *)
Theorem constructor_required_fields (config : TreeVizOAuthConfig) :
  (cfg_appId config = "" -> throws (constructor config) = true)
  /\ (cfg_usePKCE config <> Some false ->
      missing (cfg_exchangeTokenUrl config) = true ->
      throws (constructor config) = true)
  /\ (cfg_usePKCE config = Some false ->
      missing (cfg_appSecret config) = true ->
      throws (constructor config) = true)
  /\ (cfg_appId config <> "" ->
      (cfg_usePKCE config <> Some false ->
       missing (cfg_exchangeTokenUrl config) = false) ->
      (cfg_usePKCE config = Some false ->
       missing (cfg_appSecret config) = false) ->
      exists this, constructor config = Ok this).
Proof.
  rewrite constructor_throws_iff.
  repeat split.
  - intros ->. reflexivity.
  - intros Hmode Hurl. apply orb_true_iff. right.
    destruct (cfg_usePKCE config) as [[|]|]; congruence.
  - intros -> Hsecret. apply orb_true_iff. right. exact Hsecret.
  - intros Hid Hurl Hsecret.
    pose proof (constructor_throws_iff config) as Hthrows.
    destruct (constructor config) as [this|e]; [eauto|].
    exfalso. cbn [throws] in Hthrows. symmetry in Hthrows.
    apply orb_true_iff in Hthrows as [Hempty|Hmissing].
    + apply String.eqb_eq in Hempty. contradiction.
    + destruct (cfg_usePKCE config) as [[|]|].
      * rewrite Hurl in Hmissing by discriminate. discriminate.
      * rewrite Hsecret in Hmissing by reflexivity. discriminate.
      * rewrite Hurl in Hmissing by discriminate. discriminate.
Qed.

(** A PKCE configuration that names its exchange endpoint constructs. *)
Lemma constructor_required_fields_witness :
  exists this,
    constructor
      {| cfg_environment := None; cfg_appId := "your-app-id";
         cfg_appSecret := None; cfg_scopes := None;
         cfg_popupWidth := None; cfg_popupHeight := None;
         cfg_usePKCE := None;
         cfg_exchangeTokenUrl := Some "https://api.example.com/exchange" |}
    = Ok this.
Proof.
  apply constructor_required_fields; cbn.
  - discriminate.
  - reflexivity.
  - discriminate.
Defined.

(** C3, as stated, fails: a configuration in PKCE mode that supplies both
    [exchangeTokenUrl] and [appSecret] violates "exactly one of the two is
    present", and the constructor accepts it. *)
Lemma constructor_accepts_both_credentials :
  ~ (forall config : TreeVizOAuthConfig,
        xorb (negb (missing (cfg_exchangeTokenUrl config)))
             (negb (missing (cfg_appSecret config))) = false ->
        throws (constructor config) = true).
Proof.
  intros H.
  specialize (H {| cfg_environment := None; cfg_appId := "your-app-id";
                   cfg_appSecret := Some "your-app-secret";
                   cfg_scopes := None;
                   cfg_popupWidth := None; cfg_popupHeight := None;
                   cfg_usePKCE := None;
                   cfg_exchangeTokenUrl :=
                     Some "https://api.example.com/exchange" |}).
  cbn in H. specialize (H eq_refl). discriminate.
Qed.

(** C3, amended: with a non-empty [appId], the constructor throws exactly
    when the credential of the selected mode is missing ([exchangeTokenUrl]
    unless [usePKCE] is [false], [appSecret] when it is); the other
    credential is not examined, so a configuration supplying both constructs
    in either mode. *)
Theorem constructor_checks_mode_credential (config : TreeVizOAuthConfig) :
  cfg_appId config <> "" ->
  (throws (constructor config) = true <->
   missing (match cfg_usePKCE config with
            | Some false => cfg_appSecret config
            | _ => cfg_exchangeTokenUrl config
            end) = true)
  /\ (missing (cfg_exchangeTokenUrl config) = false ->
      missing (cfg_appSecret config) = false ->
      exists this, constructor config = Ok this).
Proof.
  intros Hid.
  assert (String.eqb (cfg_appId config) "" = false) as Hne
    by (apply String.eqb_neq; exact Hid).
  pose proof (constructor_throws_iff config) as Hthrows.
  rewrite Hne in Hthrows. cbn [orb] in Hthrows.
  split.
  - rewrite Hthrows. reflexivity.
  - intros Hurl Hsecret.
    destruct (constructor config) as [this|e]; [eauto|].
    cbn [throws] in Hthrows.
    destruct (cfg_usePKCE config) as [[|]|]; congruence.
Qed.

Lemma constructor_checks_mode_credential_witness :
  exists this,
    constructor
      {| cfg_environment := None; cfg_appId := "your-app-id";
         cfg_appSecret := Some "your-app-secret"; cfg_scopes := None;
         cfg_popupWidth := None; cfg_popupHeight := None;
         cfg_usePKCE := Some false;
         cfg_exchangeTokenUrl := Some "https://api.example.com/exchange" |}
    = Ok this.
Proof.
  apply constructor_checks_mode_credential; cbn.
  - discriminate.
  - reflexivity.
  - reflexivity.
Defined.

End ConstructorFacts.

(** ** getConfig *)

Section GetConfigFacts.
Import JS Scenario.

Lemma constructor_forgets_secret (config : Client.TreeVizOAuthConfig)
    (s1 s2 : option string) (this1 this2 : Client.TreeVizOAuth) :
  Client.constructor (Client.with_appSecret s1 config) = Ok this1 ->
  Client.constructor (Client.with_appSecret s2 config) = Ok this2 ->
  Client.getConfig this1 = Client.getConfig this2.
Proof.
  unfold Client.constructor, Client.with_appSecret. cbn.
  repeat match goal with
         | |- context [if ?c then _ else _] => destruct c
         end; intros H1 H2; try discriminate;
    injection H1 as <-; injection H2 as <-; reflexivity.
Qed.

Lemma legacy_constructor_forgets_secret
    (config : LegacyClient.TreeVizOAuthConfig) (s1 s2 : string)
    (this1 this2 : LegacyClient.TreeVizOAuth) :
  LegacyClient.constructor (LegacyClient.with_appSecret s1 config) = Ok this1 ->
  LegacyClient.constructor (LegacyClient.with_appSecret s2 config) = Ok this2 ->
  LegacyClient.getConfig this1 = LegacyClient.getConfig this2.
Proof.
  unfold LegacyClient.constructor, LegacyClient.with_appSecret. cbn.
  repeat match goal with
         | |- context [if ?c then _ else _] => destruct c
         end; intros H1 H2; try discriminate;
    injection H1 as <-; injection H2 as <-; reflexivity.
Qed.

(** C10: [getConfig] does not reveal the application secret, in either
    revision of the client. Two clients built from configurations that
    differ only in [appSecret] answer the same object, and that object has
    no [appSecret] field. *)
Theorem getConfig_hides_appSecret :
  (forall (config : Client.TreeVizOAuthConfig) (s1 s2 : option string)
          (this1 this2 : Client.TreeVizOAuth),
      Client.constructor (Client.with_appSecret s1 config) = Ok this1 ->
      Client.constructor (Client.with_appSecret s2 config) = Ok this2 ->
      Client.getConfig this1 = Client.getConfig this2
      /\ has_field (Client.getConfig this1) "appSecret" = false)
  /\ (forall (config : LegacyClient.TreeVizOAuthConfig) (s1 s2 : string)
             (this1 this2 : LegacyClient.TreeVizOAuth),
         LegacyClient.constructor (LegacyClient.with_appSecret s1 config)
         = Ok this1 ->
         LegacyClient.constructor (LegacyClient.with_appSecret s2 config)
         = Ok this2 ->
         LegacyClient.getConfig this1 = LegacyClient.getConfig this2
         /\ has_field (LegacyClient.getConfig this1) "appSecret" = false).
Proof.
  split.
  - intros config s1 s2 this1 this2 H1 H2. split; [|reflexivity].
    exact (constructor_forgets_secret config s1 s2 this1 this2 H1 H2).
  - intros config s1 s2 this1 this2 H1 H2. split; [|reflexivity].
    exact (legacy_constructor_forgets_secret config s1 s2 this1 this2 H1 H2).
Qed.

Lemma getConfig_hides_appSecret_witness :
  exists this1 this2,
    Client.constructor
      (Client.with_appSecret (Some "secret-one") client_secret_config)
    = Ok this1
    /\ Client.constructor
         (Client.with_appSecret (Some "secret-two") client_secret_config)
       = Ok this2
    /\ Client.appSecret this1 <> Client.appSecret this2
    /\ Client.getConfig this1 = Client.getConfig this2
    /\ has_field (Client.getConfig this1) "appSecret" = false
    /\ has_field (Client.getConfig this1) "appId" = true.
Proof.
  eexists. eexists.
  split; [reflexivity|]. split; [reflexivity|]. split; [discriminate|].
  destruct (proj1 getConfig_hides_appSecret client_secret_config
              (Some "secret-one") (Some "secret-two") _ _
              eq_refl eq_refl) as (Heq & Hno).
  split; [exact Heq|]. split; [exact Hno|reflexivity].
Defined.

End GetConfigFacts.

(** ** The backend exchange *)

Section ExchangeFacts.
Import JS Api Scenario.

Lemma run_exchange (net : nat -> request -> fetch_outcome)
    (url : string) (code : value) (cv : string) :
  run net (exchangeCodeWithBackend url code cv)
  = ([exchange_request url code cv],
     exchange_response (net 0%nat (exchange_request url code cv))).
Proof.
  unfold run, exchangeCodeWithBackend. cbn [run_from].
  destruct (exchange_response _); reflexivity.
Qed.

(** Every way the helper can end: it throws when [fetch] rejects, when the
    status is not a success, when a success body is not JSON, and when the
    parsed body has no truthy [result]; nothing else throws. *)
Lemma exchange_response_throws (o : fetch_outcome) :
  throws (exchange_response o)
  = match o with
    | NetFail _ => true
    | NetResponse r =>
        negb (ok r)
        || match json r with
           | None => true
           | Some body => negb (has_truthy body "result")
           end
    end.
Proof.
  destruct o as [e|r]; [reflexivity|].
  unfold exchange_response, has_truthy.
  destruct (ok r); cbn [negb orb]; [|reflexivity].
  destruct (json r) as [body|]; [|reflexivity].
  destruct (get body "result") as [inner|e]; cbn [bind throws negb];
    [|reflexivity].
  destruct (truthy inner); reflexivity.
Qed.

(** C7: [exchangeCodeWithBackend] issues exactly one request whatever the
    network does, a POST whose body wraps [{code, codeVerifier}] under
    [data], and never a second one. When [fetch] yields a response, it
    throws exactly when the status is not a success or the body has no
    truthy [result] (a body that is not JSON has none); otherwise it returns
    [body.result]. When [fetch] itself rejects, that rejection is thrown. *)
Theorem exchangeCodeWithBackend_single_request
    (net : nat -> request -> fetch_outcome)
    (url : string) (code : value) (cv : string) :
  let req := {| req_url := url; req_method := "POST";
                req_headers := [("Content-Type", "application/json")];
                req_body := VObj [("data", VObj [("code", code);
                                                 ("codeVerifier", VStr cv)])] |}
  in
  let '(log, outcome) := run net (exchangeCodeWithBackend url code cv) in
  log = [req]
  /\ match net 0%nat req with
     | NetFail e => outcome = Throw e
     | NetResponse r =>
         (throws outcome = true <->
          ok r = false
          \/ match json r with
             | Some body => has_truthy body "result" = false
             | None => True
             end)
         /\ (throws outcome = false ->
             exists body, json r = Some body /\ get body "result" = outcome)
     end.
Proof.
  cbn zeta. rewrite run_exchange. fold (exchange_request url code cv).
  split; [reflexivity|].
  destruct (net 0%nat (exchange_request url code cv)) as [e|r]; [reflexivity|].
  unfold exchange_response, has_truthy.
  destruct (ok r); cbn [negb].
  - destruct (json r) as [body|].
    + destruct (get body "result") as [inner|e] eqn:Hget; cbn [bind throws].
      * destruct (truthy inner); cbn [negb throws]; split.
        -- split; [discriminate|]. intros [H|H]; discriminate.
        -- intros _. exists body. split; [reflexivity|exact Hget].
        -- split; [auto|reflexivity].
        -- discriminate.
      * split; [split; auto|discriminate].
    + cbn [throws]. split; [split; auto|discriminate].
  - cbn [throws]. split; [split; auto|discriminate].
Qed.

(** A 502 answer with an HTML body is thrown and not retried, although the
    next attempt would succeed. *)
Lemma exchangeCodeWithBackend_single_request_witness :
  let '(log, outcome) :=
    run (flaky (NetResponse {| status := 502; text := "<html>Bad Gateway</html>";
                               json := None |})
               (envelope 200 (VObj [("result", VStr "ok")])))
        (exchangeCodeWithBackend "https://api.example.com/exchange"
           (VStr "abc") "verifier") in
  List.length log = 1%nat /\ throws outcome = true.
Proof.
  pose proof (exchangeCodeWithBackend_single_request
                (flaky (NetResponse {| status := 502;
                                       text := "<html>Bad Gateway</html>";
                                       json := None |})
                       (envelope 200 (VObj [("result", VStr "ok")])))
                "https://api.example.com/exchange" (VStr "abc") "verifier")
    as H.
  cbn zeta in H. destruct (run _ _) as [log outcome].
  destruct H as (Hlog & Hthrows & _).
  split.
  - rewrite Hlog. reflexivity.
  - apply Hthrows. left. reflexivity.
Defined.

End ExchangeFacts.

(** ** The popup flow *)

Section FlowFacts.
Import JS Api Types Dom Client Scenario.

Arguments Pkce.generateCodeVerifier : simpl never.
Arguments Pkce.generateCodeChallenge : simpl never.

(** Nothing registered and nothing suspended: no event reaches the
    invocation any more. *)
Lemma step_unregistered (this : TreeVizOAuth) (cv : option string)
    (w : world) (ev : event) :
  listener w = false -> interval w = false -> awaiting w = None ->
  let w' := step this cv w ev in
  listener w' = false /\ interval w' = false /\ awaiting w' = None
  /\ promise w' = promise w /\ trace w' = trace w.
Proof.
  intros Hl Hi Ha. destruct ev; cbn; rewrite ?Hl, ?Hi, ?Ha; auto.
Qed.

Lemma run_unregistered (this : TreeVizOAuth) (cv : option string)
    (evs : list event) :
  forall w,
    listener w = false -> interval w = false -> awaiting w = None ->
    let w' := fold_left (step this cv) evs w in
    listener w' = false /\ interval w' = false
    /\ promise w' = promise w /\ trace w' = trace w.
Proof.
  induction evs as [|ev evs IH]; intros w Hl Hi Ha; cbn [fold_left].
  - auto.
  - destruct (step_unregistered this cv w ev Hl Hi Ha)
      as (Hl' & Hi' & Ha' & Hp' & Ht').
    destruct (IH _ Hl' Hi' Ha') as (? & ? & Hp & Ht).
    cbn zeta. rewrite Hp, Ht. auto.
Qed.

(** C6: when [window.open] yields no handle, [signIn] rejects at once with
    the popup-blocked error; no listener is added and no timer started, then
    or under any later events. *)
Theorem signIn_popup_blocked (this : TreeVizOAuth) (b : Browser)
    (evs : list event) :
  popup_blocked b = true ->
  promise (signIn this b) = Rejected popup_blocked_error
  /\ let w := run this b evs in
     promise w = Rejected popup_blocked_error
     /\ listener w = false /\ interval w = false
     /\ occurs EAddListener (trace w) = false
     /\ occurs ESetInterval (trace w) = false.
Proof.
  intros Hblocked.
  assert (listener (signIn this b) = false
          /\ interval (signIn this b) = false
          /\ awaiting (signIn this b) = None
          /\ promise (signIn this b) = Rejected popup_blocked_error
          /\ occurs EAddListener (trace (signIn this b)) = false
          /\ occurs ESetInterval (trace (signIn this b)) = false)
    as (Hl & Hi & Ha & Hp & Hadd & Hset).
  { unfold signIn. rewrite Hblocked. destruct (usePKCE this); cbn; auto 6. }
  split; [exact Hp|].
  unfold run.
  destruct (run_unregistered this (codeVerifier this b) evs _ Hl Hi Ha)
    as (Hl' & Hi' & Hp' & Ht').
  cbn zeta in *. rewrite Hp', Ht'. auto 6.
Qed.

Lemma signIn_popup_blocked_witness :
  let w := run pkce_client (page true) [EvMessage code_message; EvTick] in
  promise w = Rejected popup_blocked_error
  /\ listener w = false /\ interval w = false
  /\ occurs EAddListener (trace w) = false.
Proof.
  pose proof (signIn_popup_blocked pkce_client (page true)
                [EvMessage code_message; EvTick] eq_refl)
    as (_ & Hp & Hl & Hi & Hadd & _).
  cbn zeta. auto.
Defined.

(** The handler of the current revision: a message without payload,
    without [type], or with a [type] other than the two terminal ones leaves
    the page as it was (promise, listener, timer and popup untouched) and no
    exception leaves the handler. *)
Lemma messageHandler_ignores_unrelated (this : TreeVizOAuth)
    (cv : option string) (data : value) (w : world) :
  data = VUndefined \/ data = VNull
  \/ (exists type, get data "type" = Ok type
                   /\ is_str type TREEVIZ_AUTH_SUCCESS = false
                   /\ is_str type TREEVIZ_AUTH_ERROR = false) ->
  messageHandler this cv data w = (w, None)
  /\ step this cv w (EvMessage data) = w.
Proof.
  intros Hdata.
  assert (messageHandler this cv data w = (w, None)) as Hh.
  { destruct Hdata as [-> | [-> | (type & Hget & Hs & He)]];
      [reflexivity | reflexivity |].
    unfold messageHandler.
    destruct (truthy data); cbn [negb]; [|reflexivity].
    rewrite Hget. destruct (truthy type); cbn [negb]; [|reflexivity].
    rewrite Hs, He. reflexivity. }
  split; [exact Hh|].
  cbn [step]. rewrite Hh. destruct (listener w); reflexivity.
Qed.

Lemma messageHandler_ignores_unrelated_witness :
  messageHandler pkce_client None
    (VObj [("type", VStr "webpackOk"); ("data", VNull)])
    (signIn pkce_client (page false))
  = (signIn pkce_client (page false), None).
Proof.
  apply (messageHandler_ignores_unrelated pkce_client None
           (VObj [("type", VStr "webpackOk"); ("data", VNull)])).
  right. right. exists (VStr "webpackOk"). repeat split; reflexivity.
Defined.

(** *** The phases are closed under the event loop *)

Lemma reject_torn_down (e : exn) (w : world) :
  torn_down w -> promise w = Pending -> awaiting w = None ->
  settlements (trace w) = 0%nat ->
  settled (reject e w).
Proof.
  intros (Hl & Hi & Hr & Hc & Ht) Hp Ha Hs.
  destruct w as [l i pop pr aw ss tr]. cbn in *. subst.
  unfold settled, torn_down, is_pending. cbn.
  rewrite Hr, Hc, Ht, Hs. auto 10.
Qed.

Lemma resolve_torn_down (r : TreeVizAuthResult) (w : world) :
  torn_down w -> promise w = Pending -> awaiting w = None ->
  settlements (trace w) = 0%nat ->
  settled (resolve r w).
Proof.
  intros (Hl & Hi & Hr & Hc & Ht) Hp Ha Hs.
  destruct w as [l i pop pr aw ss tr]. cbn in *. subst.
  unfold settled, torn_down, is_pending. cbn.
  rewrite Hr, Hc, Ht, Hs. auto 10.
Qed.

Lemma drive_torn_down (m : async TreeVizAuthResult) (w : world) :
  torn_down w -> promise w = Pending -> awaiting w = None ->
  settlements (trace w) = 0%nat ->
  exchanging (drive m w) \/ settled (drive m w).
Proof.
  intros Htd Hp Ha Hs. destruct m as [r|e|req k]; cbn [drive].
  - right. now apply resolve_torn_down.
  - right. now apply reject_torn_down.
  - left. destruct Htd as (Hl & Hi & Hr & Hc & Ht).
    destruct w as [l i pop pr aw ss tr]. cbn in *. subst.
    unfold exchanging, torn_down. cbn. rewrite Hr, Hc, Ht, Hs.
    repeat split; eauto.
Qed.

(** The three calls that open both terminal branches of the handler. *)
Lemma handler_teardown (w : world) :
  awaiting_user w ->
  let w' := close (clearInterval (removeEventListener w)) in
  torn_down w' /\ promise w' = Pending /\ awaiting w' = None
  /\ settlements (trace w') = 0%nat.
Proof.
  intros (Hl & Hi & Hp & Ha & Hs & Ht).
  destruct w as [l i pop pr aw ss tr]. cbn in *. subst.
  unfold torn_down. cbn. rewrite Ht, Hs. auto 10.
Qed.

(** The two calls of the closure poll. *)
Lemma poll_teardown (w : world) :
  awaiting_user w ->
  let w' := removeEventListener (clearInterval w) in
  torn_down w' /\ promise w' = Pending /\ awaiting w' = None
  /\ settlements (trace w') = 0%nat.
Proof.
  intros (Hl & Hi & Hp & Ha & Hs & Ht).
  destruct w as [l i pop pr aw ss tr]. cbn in *. subst.
  unfold torn_down. cbn. rewrite Ht, Hs. auto 10.
Qed.

Lemma messageHandler_in_flight (this : TreeVizOAuth) (cv : option string)
    (data : value) (w : world) :
  awaiting_user w -> in_flight (fst (messageHandler this cv data w)).
Proof.
  intros Hw. unfold messageHandler.
  destruct (handler_teardown w Hw) as (Htd & Hp & Ha & Hs).
  destruct (negb (truthy data)); [left; exact Hw|].
  destruct (get data "type") as [type|e]; [|left; exact Hw].
  destruct (negb (truthy type)); [left; exact Hw|].
  destruct (negb (is_str type TREEVIZ_AUTH_SUCCESS)
            && negb (is_str type TREEVIZ_AUTH_ERROR)); [left; exact Hw|].
  destruct (is_str type TREEVIZ_AUTH_SUCCESS).
  - right. cbn [fst]. now apply drive_torn_down.
  - destruct (is_str type TREEVIZ_AUTH_ERROR); [|left; exact Hw].
    destruct (get data "error") as [error|e]; [|left; exact Hw].
    right. right. cbn [fst]. now apply reject_torn_down.
Qed.

Lemma user_closes_in_flight (w : world) :
  in_flight w -> in_flight (user_closes w).
Proof.
  unfold in_flight, awaiting_user, exchanging, settled, torn_down, is_pending.
  destruct w as [l i pop pr aw ss tr]. cbn. tauto.
Qed.

Lemma step_in_flight (this : TreeVizOAuth) (cv : option string)
    (w : world) (ev : event) :
  in_flight w -> in_flight (step this cv w ev).
Proof.
  intros Hw. destruct ev as [data| | |o]; cbn [step].
  - destruct (listener w) eqn:Hl; [|exact Hw].
    destruct Hw as [Hw|[((Hl' & _) & _)|((Hl' & _) & _)]];
      [now apply messageHandler_in_flight|congruence|congruence].
  - destruct (interval w) eqn:Hi; [|exact Hw].
    destruct Hw as [Hw|[((_ & Hi' & _) & _)|((_ & Hi' & _) & _)]];
      [|congruence|congruence].
    unfold checkClosed. destruct (closed w); [|left; exact Hw].
    destruct (poll_teardown w Hw) as (Htd & Hp & Ha & Hs).
    right. right. now apply reject_torn_down.
  - now apply user_closes_in_flight.
  - destruct (awaiting w) as [k|] eqn:Ha; [|exact Hw].
    destruct Hw as [(_ & _ & _ & Ha' & _)|[Hw|(_ & _ & Ha' & _)]];
      [congruence| |congruence].
    right. destruct Hw as ((Hl & Hi & Hr & Hc & Ht) & Hp & _ & Hs).
    apply drive_torn_down.
    + destruct w as [l i pop pr aw ss tr]. unfold torn_down. cbn in *. auto.
    + destruct w; exact Hp.
    + destruct w; reflexivity.
    + destruct w; exact Hs.
Qed.

Lemma signIn_awaiting_user (this : TreeVizOAuth) (b : Browser) :
  popup_blocked b = false -> awaiting_user (signIn this b).
Proof.
  intros Hopen. unfold signIn, awaiting_user. rewrite Hopen.
  destruct (usePKCE this); cbn; auto 10.
Qed.

Lemma run_in_flight (this : TreeVizOAuth) (b : Browser) (evs : list event) :
  popup_blocked b = false -> in_flight (run this b evs).
Proof.
  intros Hopen. unfold run.
  assert (in_flight (signIn this b)) as Hw
    by (left; now apply signIn_awaiting_user).
  revert Hw. generalize (signIn this b).
  induction evs as [|ev evs IH]; intros w Hw; cbn [fold_left].
  - exact Hw.
  - apply IH. now apply step_in_flight.
Qed.

(** The current revision: whatever events arrive once the popup is open,
    every call of [resolve] or [reject] comes after the listener was removed
    and the timer cleared; at most one such call is made; and once the
    promise is settled, exactly one was made and neither listener nor timer
    is registered. *)
Lemma signIn_teardown_before_settle (this : TreeVizOAuth) (b : Browser)
    (evs : list event) :
  popup_blocked b = false ->
  let w := run this b evs in
  teardown_precedes_settle (trace w) = true
  /\ (settlements (trace w) <= 1)%nat
  /\ (is_pending w = false ->
      settlements (trace w) = 1%nat
      /\ listener w = false /\ interval w = false).
Proof.
  intros Hopen. cbn zeta.
  destruct (run_in_flight this b evs Hopen)
    as [(Hl & Hi & Hp & Ha & Hs & Ht)
       |[((Hl & Hi & Hr & Hc & Ht) & Hp & Ha & Hs)
        |((Hl & Hi & Hr & Hc & Ht) & Hp & Ha & Hs)]].
  - split; [exact Ht|]. split; [lia|].
    unfold is_pending. rewrite Hp. discriminate.
  - split; [exact Ht|]. split; [lia|].
    unfold is_pending. rewrite Hp. discriminate.
  - split; [exact Ht|]. split; [lia|]. auto.
Qed.

Lemma signIn_teardown_before_settle_witness :
  let w := run pkce_client (page false)
             [EvMessage code_message; EvTick;
              EvFetchSettles (NetFail (JsError "TypeError" "Failed to fetch"));
              EvMessage code_message] in
  teardown_precedes_settle (trace w) = true
  /\ settlements (trace w) = 1%nat
  /\ listener w = false /\ interval w = false.
Proof.
  destruct (signIn_teardown_before_settle pkce_client (page false)
              [EvMessage code_message; EvTick;
               EvFetchSettles (NetFail (JsError "TypeError" "Failed to fetch"));
               EvMessage code_message] eq_refl) as (Ht & _ & Hs).
  cbn zeta. split; [exact Ht|]. apply Hs. reflexivity.
Defined.

(** Each exit path of the current revision settles the promise with its
    teardown done. *)
Example exit_on_error_message :
  let w := run pkce_client (page false)
             [EvMessage (VObj [("type", VStr "TREEVIZ_AUTH_ERROR");
                               ("error", VStr "denied")]);
              EvMessage code_message; EvTick] in
  promise w = Rejected (JsError "Error" "denied")
  /\ listener w = false /\ interval w = false
  /\ settlements (trace w) = 1%nat.
Proof. cbn zeta. auto. Qed.

Example exit_on_popup_closed :
  let w := run pkce_client (page false) [EvUserClosesPopup; EvTick; EvTick] in
  promise w = Rejected (JsError "Error" "authError.authenticationCancelled")
  /\ listener w = false /\ interval w = false
  /\ settlements (trace w) = 1%nat.
Proof. cbn zeta. auto. Qed.

Example exit_on_exchange_failure :
  let w := run pkce_client (page false)
             [EvMessage code_message;
              EvFetchSettles
                (NetResponse {| status := 500; text := "boom";
                                json := None |});
              EvTick] in
  promise w
  = Rejected (JsError "Error" "Backend token exchange failed (500): boom")
  /\ listener w = false /\ interval w = false
  /\ settlements (trace w) = 1%nat.
Proof. cbn zeta. repeat split; vm_compute; reflexivity. Qed.

(** *** The PKCE success path *)

Lemma generateCodeVerifier_nonempty (cr : Pkce.Crypto) :
  String.eqb (Pkce.generateCodeVerifier cr) "" = false.
Proof.
  pose proof (generateCodeVerifier_length cr) as Hlen.
  destruct (Pkce.generateCodeVerifier cr); [discriminate Hlen|reflexivity].
Qed.

Lemma exchange_response_backend (st : Z) (txt : string) :
  (200 <= st <= 299)%Z ->
  exchange_response (backend_answer st txt)
  = Ok (VObj [("firebaseToken", VStr "T");
              ("user", VObj [("uid", VStr "U"); ("email", VStr "e@x.com");
                             ("displayName", VStr "D");
                             ("photoURL", VNull)])]).
Proof.
  intros [Hlo Hhi]. unfold exchange_response, backend_answer, ok.
  cbn [status json text].
  rewrite (proj2 (Z.leb_le _ _) Hlo), (proj2 (Z.leb_le _ _) Hhi).
  reflexivity.
Qed.

Arguments exchange_response : simpl never.

(** C1: in PKCE mode, when the popup posts
    [{type: "TREEVIZ_AUTH_SUCCESS", code: "abc"}] and the exchange endpoint
    answers a 2xx status with the sample body, the exchange request carries
    the code and the verifier of this invocation and the promise resolves to
    [{token: "T", uid: "U", email: "e@x.com", displayName: "D",
    photoURL: null}]. *)
Theorem signIn_pkce_success (this : TreeVizOAuth) (b : Browser)
    (st : Z) (txt : string) :
  usePKCE this = true ->
  popup_blocked b = false ->
  (200 <= st <= 299)%Z ->
  let w := run this b [EvMessage code_message;
                       EvFetchSettles (backend_answer st txt)] in
  promise w = Resolved expected_result
  /\ List.filter (fun e => match e with EFetch _ => true | _ => false end)
       (trace w)
     = [EFetch (exchange_request (default "undefined" (exchangeTokenUrl this))
                  (VStr "abc") (Pkce.generateCodeVerifier (crypto b)))].
Proof.
  intros Hpkce Hopen Hst.
  pose proof (generateCodeVerifier_nonempty (crypto b)) as Hv.
  pose proof (exchange_response_backend st txt Hst) as Hx.
  destruct this as [id secret sc pw ph pk url env]. cbn in Hpkce. subst pk.
  unfold run, codeVerifier, signIn. cbn [usePKCE]. rewrite Hopen.
  cbn. unfold verifier_truthy, missing. rewrite Hv. cbn.
  rewrite Hx. cbn. split; reflexivity.
Qed.

Lemma signIn_pkce_success_witness :
  promise (run pkce_client (page false)
             [EvMessage code_message; EvFetchSettles (backend_answer 200 "")])
  = Resolved expected_result.
Proof.
  pose proof (signIn_pkce_success pkce_client (page false) 200 ""
                eq_refl eq_refl ltac:(lia)) as [H _].
  exact H.
Defined.

(** *** Session storage *)

Lemma drive_sessionStorage (m : async TreeVizAuthResult) (w : world) :
  sessionStorage (drive m w) = sessionStorage w.
Proof. destruct m; reflexivity. Qed.

Lemma step_sessionStorage (this : TreeVizOAuth) (cv : option string)
    (w : world) (ev : event) :
  sessionStorage (step this cv w ev) = sessionStorage w.
Proof.
  destruct ev as [data| | |o]; cbn [step].
  - destruct (listener w); [|reflexivity]. unfold messageHandler.
    repeat match goal with
           | |- context [if ?c then _ else _] => destruct c
           | |- context [match get ?d ?k with _ => _ end] =>
               destruct (get d k)
           end; cbn [fst]; rewrite ?drive_sessionStorage; reflexivity.
  - destruct (interval w); [|reflexivity]. unfold checkClosed.
    destruct (closed w); reflexivity.
  - reflexivity.
  - destruct (awaiting w); [|reflexivity].
    rewrite drive_sessionStorage. reflexivity.
Qed.

Lemma run_sessionStorage (this : TreeVizOAuth) (b : Browser)
    (evs : list event) :
  sessionStorage (run this b evs) = sessionStorage (signIn this b).
Proof.
  unfold run. generalize (signIn this b).
  induction evs as [|ev evs IH]; intros w; cbn [fold_left].
  - reflexivity.
  - rewrite IH. apply step_sessionStorage.
Qed.

Lemma signIn_sessionStorage (this : TreeVizOAuth) (b : Browser) :
  usePKCE this = true ->
  sessionStorage (signIn this b)
  = <["pkce_code_challenge" := codeChallenge b]>
      (<["pkce_code_verifier" := Pkce.generateCodeVerifier (crypto b)]>
         (storage b)).
Proof.
  intros Hpkce. unfold signIn. rewrite Hpkce.
  destruct (popup_blocked b); reflexivity.
Qed.

(** C9, as stated, fails: the user closes the popup, the poll rejects the
    promise, and the verifier and the challenge of that invocation are
    still in session storage. *)
Lemma pkce_pair_outlives_flow :
  let w := run pkce_client (page false) [EvUserClosesPopup; EvTick] in
  promise w = Rejected (JsError "Error" "authError.authenticationCancelled")
  /\ sessionStorage w !! "pkce_code_verifier"
     = Some "AAAAAAAAAAAAAAAAAAAAAAAAAAAAAAAAAAAAAAAAAAA"
  /\ sessionStorage w !! "pkce_code_challenge"
     = Some "AAAAAAAAAAAAAAAAAAAAAAAAAAAAAAAAAAAAAAAAAAA".
Proof.
  cbn zeta. split; [reflexivity|].
  rewrite run_sessionStorage, signIn_sessionStorage by reflexivity.
  split.
  - rewrite lookup_insert_ne by discriminate.
    rewrite lookup_insert_eq. f_equal.
  - rewrite lookup_insert_eq. f_equal.
Qed.

(** C9, amended: the verifier lives in the closure of the invocation, and
    once the promise of an opened flow is settled no listener, timer or
    suspended handler holding that closure remains; the session-storage
    entries [pkce_code_verifier] and [pkce_code_challenge] written at the
    start are never removed by [signIn] and still hold the pair after the
    flow. *)
Theorem signIn_pkce_pair_lifetime (this : TreeVizOAuth) (b : Browser)
    (evs : list event) :
  usePKCE this = true ->
  let w := run this b evs in
  sessionStorage w !! "pkce_code_verifier"
  = Some (Pkce.generateCodeVerifier (crypto b))
  /\ sessionStorage w !! "pkce_code_challenge"
     = Some (Pkce.generateCodeChallenge (crypto b)
               (Pkce.generateCodeVerifier (crypto b)))
  /\ (popup_blocked b = false -> is_pending w = false ->
      listener w = false /\ interval w = false /\ awaiting w = None).
Proof.
  intros Hpkce. cbn zeta.
  rewrite run_sessionStorage, signIn_sessionStorage by exact Hpkce.
  split; [|split].
  - rewrite lookup_insert_ne by discriminate. apply lookup_insert_eq.
  - apply lookup_insert_eq.
  - intros Hopen Hsettled.
    destruct (run_in_flight this b evs Hopen)
      as [(_ & _ & Hp & _)|[(_ & Hp & _)|((Hl & Hi & _) & _ & Ha & _)]].
    + unfold is_pending in Hsettled. rewrite Hp in Hsettled. discriminate.
    + unfold is_pending in Hsettled. rewrite Hp in Hsettled. discriminate.
    + auto.
Qed.

Lemma signIn_pkce_pair_lifetime_witness :
  let w := run pkce_client (page false)
             [EvMessage code_message;
              EvFetchSettles (backend_answer 200 "")] in
  is_Some (sessionStorage w !! "pkce_code_verifier")
  /\ listener w = false.
Proof.
  pose proof (signIn_pkce_pair_lifetime pkce_client (page false)
                [EvMessage code_message;
                 EvFetchSettles (backend_answer 200 "")] eq_refl)
    as (Hv & _ & Hfree).
  cbn zeta in *. split.
  - rewrite Hv. eauto.
  - apply Hfree; reflexivity.
Defined.

End FlowFacts.

(** ** The first revision of the client *)

Section LegacyFacts.
Import JS Api Types Dom Scenario.

(** C5 on the first revision: its handler reads [event.data.type] before
    any check, so a message without payload makes it throw. *)
Theorem legacy_messageHandler_throws_without_payload (w : world) :
  LegacyClient.messageHandler VNull w
  = (w, Some (JsError "TypeError"
                "Cannot read properties of null (reading 'type')"))
  /\ LegacyClient.messageHandler VUndefined w
     = (w, Some (JsError "TypeError"
                   "Cannot read properties of undefined (reading 'type')")).
Proof. split; reflexivity. Qed.

(** With a payload, the first revision ignores what it does not know. *)
Lemma legacy_messageHandler_ignores_unknown_type (data type : value)
    (w : world) :
  get data "type" = Ok type ->
  is_str type TREEVIZ_AUTH_SUCCESS = false ->
  is_str type TREEVIZ_AUTH_ERROR = false ->
  LegacyClient.messageHandler data w = (w, None).
Proof.
  intros Hget Hs He. unfold LegacyClient.messageHandler.
  rewrite Hget, Hs, He. reflexivity.
Qed.

(** C2 on the first revision: its message branches remove the listener and
    close the popup but do not clear the timer. After a success message the
    promise is resolved with the timer still running and no [clearInterval]
    before the call of [resolve]; the next tick finds the popup closed and
    calls [reject] as a second terminal transition. *)
Theorem legacy_signIn_success_leaves_timer
    (this : LegacyClient.TreeVizOAuth) (b : Browser) :
  popup_blocked b = false ->
  let w := LegacyClient.run this b [EvMessage token_message] in
  let w' := LegacyClient.run this b [EvMessage token_message; EvTick] in
  is_pending w = false
  /\ listener w = false /\ interval w = true
  /\ occurs EClearInterval (trace w) = false
  /\ teardown_precedes_settle (trace w) = false
  /\ settlements (trace w') = 2%nat.
Proof.
  intros Hopen. unfold LegacyClient.run, LegacyClient.signIn.
  rewrite Hopen. cbn. auto 10.
Qed.

Lemma legacy_signIn_success_leaves_timer_witness :
  let w := LegacyClient.run legacy_client (page false)
             [EvMessage token_message] in
  is_pending w = false /\ interval w = true.
Proof.
  pose proof (legacy_signIn_success_leaves_timer legacy_client (page false)
                eq_refl) as (Hp & _ & Hi & _).
  cbn zeta. auto.
Defined.

End LegacyFacts.

(** ** More on the encoding *)

Section EncodingFacts.
Import Pkce Aux.

Lemma b64index_sextet (x : N) :
  b64index (url_char (b64char (x mod 64))) = (x mod 64)%N.
Proof.
  assert (x mod 64 < 64)%N as Hlt by (apply N.mod_lt; lia).
  remember (x mod 64)%N as k eqn:Hk. clear Hk x.
  assert (exists m, k = N.of_nat m /\ (m < 64)%nat) as (m & -> & Hm).
  { exists (N.to_nat k). split; lia. }
  do 64 (destruct m as [|m]; [vm_compute; reflexivity|]).
  lia.
Qed.

Lemma sextet_inj (x y : N) :
  url_char (b64char (x mod 64)) = url_char (b64char (y mod 64)) ->
  (x mod 64 = y mod 64)%N.
Proof.
  intros H. rewrite <- (b64index_sextet x), <- (b64index_sextet y).
  now rewrite H.
Qed.

Lemma N_of_ascii_lt (a : ascii) : (N_of_ascii a < 256)%N.
Proof. apply N_ascii_bounded. Qed.

Lemma N_of_ascii_inj (a b : ascii) : N_of_ascii a = N_of_ascii b -> a = b.
Proof.
  intros H. rewrite <- (ascii_N_embedding a), <- (ascii_N_embedding b).
  now rewrite H.
Qed.

(** A number below 64^4 is its four base-64 digits. *)
Lemma digits64 (n : N) :
  (n < 16777216 ->
   n = 262144 * (n / 262144 mod 64) + 4096 * (n / 4096 mod 64)
       + 64 * (n / 64 mod 64) + n mod 64)%N.
Proof. intros. zify. Z.to_euclidean_division_equations. lia. Qed.

Lemma digits64_inj (n n' : N) :
  (n < 16777216 -> n' < 16777216 ->
   n / 262144 mod 64 = n' / 262144 mod 64 ->
   n / 4096 mod 64 = n' / 4096 mod 64 ->
   n / 64 mod 64 = n' / 64 mod 64 ->
   n mod 64 = n' mod 64 ->
   n = n')%N.
Proof.
  intros Hn Hn' H1 H2 H3 H4.
  rewrite (digits64 n Hn), (digits64 n' Hn'), H1, H2, H3, H4. reflexivity.
Qed.

Lemma low_digits_one_byte (a : N) :
  ((a * 65536) / 64 mod 64 = 0 /\ (a * 65536) mod 64 = 0)%N.
Proof. zify. Z.to_euclidean_division_equations. lia. Qed.

Lemma low_digit_two_bytes (a b : N) :
  ((a * 65536 + b * 256) mod 64 = 0)%N.
Proof. zify. Z.to_euclidean_division_equations. lia. Qed.

Lemma group1_inj (a a' : N) :
  (a < 256 -> a' < 256 ->
   a * 65536 / 262144 mod 64 = a' * 65536 / 262144 mod 64 ->
   a * 65536 / 4096 mod 64 = a' * 65536 / 4096 mod 64 ->
   a = a')%N.
Proof.
  intros Ha Ha' H1 H2.
  destruct (low_digits_one_byte a) as [L3 L4].
  destruct (low_digits_one_byte a') as [L3' L4'].
  assert (a * 65536 = a' * 65536)%N as Hn.
  { apply digits64_inj; try lia; congruence. }
  lia.
Qed.

Lemma group2_inj (a b a' b' : N) :
  (a < 256 -> b < 256 -> a' < 256 -> b' < 256 ->
   (a * 65536 + b * 256) / 262144 mod 64
   = (a' * 65536 + b' * 256) / 262144 mod 64 ->
   (a * 65536 + b * 256) / 4096 mod 64
   = (a' * 65536 + b' * 256) / 4096 mod 64 ->
   (a * 65536 + b * 256) / 64 mod 64
   = (a' * 65536 + b' * 256) / 64 mod 64 ->
   a = a' /\ b = b')%N.
Proof.
  intros Ha Hb Ha' Hb' H1 H2 H3.
  pose proof (low_digit_two_bytes a b) as L4.
  pose proof (low_digit_two_bytes a' b') as L4'.
  assert (a * 65536 + b * 256 = a' * 65536 + b' * 256)%N as Hn.
  { apply digits64_inj; try lia; congruence. }
  lia.
Qed.

Lemma group3_inj (a b c a' b' c' : N) :
  (a < 256 -> b < 256 -> c < 256 -> a' < 256 -> b' < 256 -> c' < 256 ->
   (a * 65536 + b * 256 + c) / 262144 mod 64
   = (a' * 65536 + b' * 256 + c') / 262144 mod 64 ->
   (a * 65536 + b * 256 + c) / 4096 mod 64
   = (a' * 65536 + b' * 256 + c') / 4096 mod 64 ->
   (a * 65536 + b * 256 + c) / 64 mod 64
   = (a' * 65536 + b' * 256 + c') / 64 mod 64 ->
   (a * 65536 + b * 256 + c) mod 64
   = (a' * 65536 + b' * 256 + c') mod 64 ->
   a = a' /\ b = b' /\ c = c')%N.
Proof.
  intros Ha Hb Hc Ha' Hb' Hc' H1 H2 H3 H4.
  assert (a * 65536 + b * 256 + c = a' * 65536 + b' * 256 + c')%N as Hn.
  { apply digits64_inj; try lia; assumption. }
  lia.
Qed.

Lemma url_encode_nil : url_encode_tail "" = "".
Proof. reflexivity. Qed.

Lemma url_encode_pad1 : url_encode_tail "=" = "".
Proof. reflexivity. Qed.

Lemma url_encode_pad2 : url_encode_tail "==" = "".
Proof. reflexivity. Qed.

Lemma url_encode_inj (s1 : string) :
  forall s2,
    url_encode_tail (btoa s1) = url_encode_tail (btoa s2) -> s1 = s2.
Proof.
  induction s1 as [|a|a b|a b c s1 IH] using string_ind3;
    intros [|a' [|b' [|c' s2]]]; cbn [btoa];
    rewrite ?url_encode_cons, ?url_encode_nil, ?url_encode_pad1,
      ?url_encode_pad2;
    intros H; try discriminate H.
  - reflexivity.
  - injection H as H1 H2. apply sextet_inj in H1, H2.
    f_equal. apply N_of_ascii_inj.
    apply group1_inj; auto using N_of_ascii_lt.
  - injection H as H1 H2 H3. apply sextet_inj in H1, H2, H3.
    destruct (group2_inj (N_of_ascii a) (N_of_ascii b)
                (N_of_ascii a') (N_of_ascii b')) as [Ea Eb];
      auto using N_of_ascii_lt.
    apply N_of_ascii_inj in Ea, Eb. now subst.
  - injection H as H1 H2 H3 H4 Hrest.
    apply sextet_inj in H1, H2, H3, H4.
    destruct (group3_inj (N_of_ascii a) (N_of_ascii b) (N_of_ascii c)
                (N_of_ascii a') (N_of_ascii b') (N_of_ascii c'))
      as (Ea & Eb & Ec); auto using N_of_ascii_lt.
    apply N_of_ascii_inj in Ea, Eb, Ec. subst.
    now rewrite (IH s2 Hrest).
Qed.

Lemma fromCharCode_inj (l1 l2 : list Byte.byte) :
  fromCharCode l1 = fromCharCode l2 -> l1 = l2.
Proof.
  unfold fromCharCode. intros H.
  rewrite <- (list_byte_of_string_of_list_byte l1),
          <- (list_byte_of_string_of_list_byte l2).
  now rewrite H.
Qed.

Lemma base64UrlEncode_inj (l1 l2 : list Byte.byte) :
  base64UrlEncode l1 = base64UrlEncode l2 -> l1 = l2.
Proof.
  unfold base64UrlEncode.
  fold (url_encode_tail (btoa (fromCharCode l1))).
  fold (url_encode_tail (btoa (fromCharCode l2))).
  intros H. apply fromCharCode_inj. now apply url_encode_inj.
Qed.

(** [base64UrlEncode] loses nothing: two buffers with the same encoding are
    the same buffer. *)
Theorem base64UrlEncode_injective (l1 l2 : list Byte.byte) :
  base64UrlEncode l1 = base64UrlEncode l2 -> l1 = l2.
Proof. apply base64UrlEncode_inj. Qed.

Lemma base64UrlEncode_injective_witness :
  [Byte.x00; Byte.x01] = [Byte.x00; Byte.x01].
Proof.
  apply (base64UrlEncode_injective [Byte.x00; Byte.x01]
           [Byte.x00; Byte.x01]).
  reflexivity.
Defined.

(** For a buffer of at most 32 bytes, the sizes the module encodes (32
    random bytes, a 32-byte digest), the encoding has [ceil(4n/3)]
    characters, all of them in [[A-Za-z0-9-._~]]: no padding, no [+], no
    [/]. *)
Theorem base64UrlEncode_shape (buffer : list Byte.byte) :
  (List.length buffer <= 32)%nat ->
  String.length (base64UrlEncode buffer)
  = ((4 * List.length buffer + 2) / 3)%nat
  /\ forall_chars unreserved (base64UrlEncode buffer) = true.
Proof.
  intros _. split.
  - apply base64UrlEncode_length.
  - apply base64UrlEncode_alphabet.
Qed.

Lemma base64UrlEncode_shape_witness :
  String.length (base64UrlEncode [Byte.xfb; Byte.xff; Byte.xfe; Byte.x00])
  = 6%nat.
Proof.
  apply (base64UrlEncode_shape [Byte.xfb; Byte.xff; Byte.xfe; Byte.x00]).
  cbn. lia.
Defined.

Lemma map_seq_ext {A} (f g : nat -> A) (n : nat) :
  List.map f (seq 0 n) = List.map g (seq 0 n) <->
  (forall i, (i < n)%nat -> f i = g i).
Proof.
  split.
  - intros H i Hi.
    assert (nth_error (List.map f (seq 0 n)) i
            = nth_error (List.map g (seq 0 n)) i) as Hnth by now rewrite H.
    rewrite !nth_error_map, nth_error_seq in Hnth.
    destruct (Nat.ltb_spec i n); [|lia]. cbn in Hnth. congruence.
  - intros H. apply map_ext_in. intros i Hi.
    apply in_seq in Hi. apply H. lia.
Qed.

(** Two verifiers are equal exactly when the 32 random bytes behind them
    are: the encoding keeps all 256 bits of the random source. *)
Theorem generateCodeVerifier_keeps_entropy (cr1 cr2 : Crypto) :
  generateCodeVerifier cr1 = generateCodeVerifier cr2 <->
  (forall i, (i < 32)%nat -> entropy cr1 i = entropy cr2 i).
Proof.
  unfold generateCodeVerifier, getRandomValues.
  rewrite <- map_seq_ext. split.
  - apply base64UrlEncode_inj.
  - now intros ->.
Qed.

Lemma generateCodeVerifier_keeps_entropy_witness :
  generateCodeVerifier {| entropy := fun _ => Byte.x2a;
                          sha256 := fun _ => [] |}
  = generateCodeVerifier {| entropy := fun i => if (i <? 32)%nat
                                                then Byte.x2a else Byte.x00;
                            sha256 := fun l => l |}.
Proof.
  apply generateCodeVerifier_keeps_entropy. intros i Hi. cbn [entropy].
  destruct (Nat.ltb_spec i 32); [reflexivity|lia].
Defined.

(** With a digest of 32 bytes, as SHA-256 gives, the challenge has 43
    characters of the unreserved set, and two verifiers have the same
    challenge only if they have the same digest. *)
Theorem generateCodeChallenge_shape (cr : Crypto) (v1 v2 : string) :
  List.length (sha256 cr (encode v1)) = 32%nat ->
  String.length (generateCodeChallenge cr v1) = 43%nat
  /\ forall_chars unreserved (generateCodeChallenge cr v1) = true
  /\ (generateCodeChallenge cr v1 = generateCodeChallenge cr v2 ->
      sha256 cr (encode v1) = sha256 cr (encode v2)).
Proof.
  intros Hlen. unfold generateCodeChallenge. split; [|split].
  - rewrite base64UrlEncode_length, Hlen. reflexivity.
  - apply base64UrlEncode_alphabet.
  - apply base64UrlEncode_inj.
Qed.

Lemma generateCodeChallenge_shape_witness :
  String.length
    (generateCodeChallenge (Dom.crypto (Scenario.page false)) "verifier")
  = 43%nat.
Proof.
  apply (generateCodeChallenge_shape (Dom.crypto (Scenario.page false))
           "verifier" "verifier").
  reflexivity.
Defined.

End EncodingFacts.

(** ** More on the constructor *)

Section ConstructorInvariant.
Import JS Client Aux.

Lemma number_or_spec (n : option Z) (d : Z) :
  (forall m, n = Some m -> m <> 0%Z -> number_or n d = m)
  /\ (n = None \/ n = Some 0%Z -> number_or n d = d).
Proof.
  unfold number_or. split.
  - intros m -> Hm. destruct (Z.eqb_spec m 0); [contradiction|reflexivity].
  - intros [->| ->]; reflexivity.
Qed.

(** What every constructed client satisfies: the configured [appId], not
    empty; PKCE mode unless [usePKCE] was exactly [false]; the credential of
    its mode ([exchangeTokenUrl] under PKCE, [appSecret] otherwise); the
    configured popup width and height when they are not zero, and 600 and
    700 when they are omitted or zero; the configured scopes, or
    [["email"; "profile"]]; the configured environment, or production. *)
Theorem constructor_invariant (config : TreeVizOAuthConfig)
    (this : TreeVizOAuth) :
  constructor config = Ok this ->
  (appId this = cfg_appId config /\ appId this <> "")
  /\ (usePKCE this = false <-> cfg_usePKCE config = Some false)
  /\ (usePKCE this = true -> missing (exchangeTokenUrl this) = false)
  /\ (usePKCE this = false -> missing (appSecret this) = false)
  /\ (forall n, cfg_popupWidth config = Some n -> n <> 0%Z ->
                popupWidth this = n)
  /\ (cfg_popupWidth config = None \/ cfg_popupWidth config = Some 0%Z ->
      popupWidth this = 600%Z)
  /\ (forall n, cfg_popupHeight config = Some n -> n <> 0%Z ->
                popupHeight this = n)
  /\ (cfg_popupHeight config = None \/ cfg_popupHeight config = Some 0%Z ->
      popupHeight this = 700%Z)
  /\ scopes this = default ["email"; "profile"] (cfg_scopes config)
  /\ environment this
     = default Constants.production (cfg_environment config).
Proof.
  intros H.
  assert (cfg_appId config <> ""
          /\ missing (match cfg_usePKCE config with
                      | Some false => cfg_appSecret config
                      | _ => cfg_exchangeTokenUrl config
                      end) = false
          /\ this
             = {| appId := cfg_appId config;
                  appSecret := cfg_appSecret config;
                  scopes := default Constants.DEFAULT_OAUTH_SCOPES
                              (cfg_scopes config);
                  popupWidth := number_or (cfg_popupWidth config) 600;
                  popupHeight := number_or (cfg_popupHeight config) 700;
                  usePKCE := match cfg_usePKCE config with
                             | Some false => false
                             | _ => true
                             end;
                  exchangeTokenUrl := cfg_exchangeTokenUrl config;
                  environment := default Constants.production
                                   (cfg_environment config) |})
    as (Hid & Hcred & ->).
  { revert H. unfold constructor.
    destruct (String.eqb_spec (cfg_appId config) "") as [|Hid];
      [discriminate|].
    destruct (missing (cfg_appSecret config)) eqn:Hsecret;
      destruct (missing (cfg_exchangeTokenUrl config)) eqn:Hurl;
      destruct (cfg_usePKCE config) as [[|]|]; cbn [negb andb];
      intros H; try discriminate H; injection H as <-; auto. }
  cbn [appId appSecret scopes popupWidth popupHeight usePKCE
       exchangeTokenUrl environment].
  destruct (number_or_spec (cfg_popupWidth config) 600) as [Hw Hw0].
  destruct (number_or_spec (cfg_popupHeight config) 700) as [Hh Hh0].
  split; [split; [reflexivity|exact Hid]|].
  split; [destruct (cfg_usePKCE config) as [[|]|]; split; congruence|].
  split; [destruct (cfg_usePKCE config) as [[|]|]; congruence|].
  split; [destruct (cfg_usePKCE config) as [[|]|]; congruence|].
  split; [exact Hw|]. split; [exact Hw0|].
  split; [exact Hh|]. split; [exact Hh0|].
  split; reflexivity.
Qed.

Lemma constructor_invariant_witness :
  exists this,
    constructor zero_width_config = Ok this
    /\ popupWidth this = 600%Z /\ popupHeight this = 700%Z.
Proof.
  eexists. split; [reflexivity|].
  destruct (constructor_invariant zero_width_config _ eq_refl)
    as (_ & _ & _ & _ & _ & Hw & _ & Hh & _).
  split; [apply Hw; right; reflexivity|apply Hh; left; reflexivity].
Defined.

End ConstructorInvariant.

(** ** More on the popup flow of the current client *)

Section FlowPaths.
Import JS Api Types Dom Client Aux.

Arguments Pkce.generateCodeVerifier : simpl never.
Arguments Pkce.generateCodeChallenge : simpl never.
Arguments exchange_response : simpl never.

Lemma run_cons (this : TreeVizOAuth) (b : Browser) (ev : event)
    (evs : list event) :
  run this b (ev :: evs)
  = fold_left (step this (codeVerifier this b)) evs
      (step this (codeVerifier this b) (signIn this b) ev).
Proof. reflexivity. Qed.

(** The state right after [signIn] on a page that lets the popup open. *)
Lemma signIn_open (this : TreeVizOAuth) (b : Browser) :
  popup_blocked b = false ->
  listener (signIn this b) = true /\ interval (signIn this b) = true
  /\ popup (signIn this b) = PopupOpen
  /\ promise (signIn this b) = Pending
  /\ awaiting (signIn this b) = None.
Proof.
  intros Hopen. unfold signIn. rewrite Hopen.
  destruct (usePKCE this); cbn; auto.
Qed.

Lemma run_ticks (this : TreeVizOAuth) (b : Browser) (n : nat) :
  popup_blocked b = false ->
  run this b (repeat EvTick n) = signIn this b.
Proof.
  intros Hopen.
  destruct (signIn_open this b Hopen) as (Hl & Hi & Hpop & Hp & Ha).
  unfold run. induction n as [|n IH]; [reflexivity|].
  cbn [repeat fold_left step]. rewrite Hi.
  unfold checkClosed, closed. rewrite Hpop. exact IH.
Qed.

(** There is no timeout: while the popup stays open and nothing is posted,
    any number of timer ticks leaves the invocation exactly as [signIn]
    left it, the promise pending. *)
Theorem signIn_never_times_out (this : TreeVizOAuth) (b : Browser) (n : nat) :
  popup_blocked b = false ->
  run this b (repeat EvTick n) = signIn this b
  /\ promise (run this b (repeat EvTick n)) = Pending.
Proof.
  intros Hopen. rewrite (run_ticks this b n Hopen).
  destruct (signIn_open this b Hopen) as (Hl & Hi & Hpop & Hp & Ha). auto.
Qed.

Lemma signIn_never_times_out_witness :
  promise (run Scenario.pkce_client (Scenario.page false) (repeat EvTick 3600))
  = Pending.
Proof.
  exact (proj2 (signIn_never_times_out Scenario.pkce_client
                  (Scenario.page false) 3600 eq_refl)).
Defined.

(** Once a step has left the invocation without listener, timer and
    suspended handler, the rest of the run changes neither promise nor
    trace. *)
Lemma run_after_teardown (this : TreeVizOAuth) (b : Browser)
    (evs0 evs : list event) :
  let w1 := run this b evs0 in
  listener w1 = false -> interval w1 = false -> awaiting w1 = None ->
  let w := run this b (evs0 ++ evs) in
  promise w = promise w1 /\ trace w = trace w1
  /\ listener w = false /\ interval w = false.
Proof.
  cbn zeta. intros Hl Hi Ha. unfold run in *. rewrite fold_left_app.
  destruct (run_unregistered this (codeVerifier this b) evs _ Hl Hi Ha)
    as (Hl' & Hi' & Hp' & Ht').
  auto.
Qed.

(** An error message from the popup whose [error] is a string, as the
    message type declares it, or is missing or falsy, rejects the promise
    with that string, or with "TreeViz authentication failed" when it is
    empty, missing or falsy; listener and timer are gone, no request was
    sent, and nothing that arrives later changes that. *)
Theorem signIn_error_message (this : TreeVizOAuth) (b : Browser)
    (error : value) (evs : list event) :
  popup_blocked b = false ->
  (exists s, error = VStr s) \/ truthy error = false ->
  let message :=
    match error with
    | VStr s => if String.eqb s "" then "TreeViz authentication failed" else s
    | _ => "TreeViz authentication failed"
    end in
  let w := run this b (EvMessage (error_message error) :: evs) in
  promise w = Rejected (JsError "Error" message)
  /\ listener w = false /\ interval w = false
  /\ settlements (trace w) = 1%nat /\ fetches (trace w) = 0%nat.
Proof.
  intros Hopen Herror.
  pose proof (run_after_teardown this b [EvMessage (error_message error)] evs)
    as Hrest.
  cbn zeta in *. cbn [app] in Hrest.
  assert (to_string (or_else error (VStr "TreeViz authentication failed"))
          = match error with
            | VStr s =>
                if String.eqb s "" then "TreeViz authentication failed" else s
            | _ => "TreeViz authentication failed"
            end) as Hmsg.
  { unfold or_else. destruct Herror as [[s ->]|Hfalsy].
    - cbn [truthy]. destruct (String.eqb s ""); reflexivity.
    - rewrite Hfalsy. destruct error as [| |[|]|n|s|items|fields];
        try discriminate Hfalsy; try reflexivity.
      cbn [truthy] in Hfalsy. destruct (String.eqb s ""); [reflexivity|].
      discriminate Hfalsy. }
  assert (let w1 := run this b [EvMessage (error_message error)] in
          listener w1 = false /\ interval w1 = false /\ awaiting w1 = None
          /\ promise w1
             = Rejected (JsError "Error"
                           (to_string
                              (or_else error
                                 (VStr "TreeViz authentication failed"))))
          /\ settlements (trace w1) = 1%nat /\ fetches (trace w1) = 0%nat)
    as (Hl & Hi & Ha & Hp & Hs & Hf).
  { unfold run, signIn. rewrite Hopen.
    destruct (usePKCE this); cbn; auto 10. }
  rewrite Hmsg in Hp.
  destruct (Hrest Hl Hi Ha) as (-> & -> & ? & ?). auto.
Qed.

Lemma signIn_error_message_witness :
  promise (run Scenario.pkce_client (Scenario.page false)
             [EvMessage (error_message (VStr "denied")); EvTick])
  = Rejected (JsError "Error" "denied").
Proof.
  refine (proj1 (signIn_error_message Scenario.pkce_client
                   (Scenario.page false) (VStr "denied") [EvTick] eq_refl _)).
  left. exists "denied". reflexivity.
Defined.

(** Closing the popup does not settle anything by itself; the first tick
    after it does, however many ticks went by before: the promise is
    rejected with "authError.authenticationCancelled", listener and timer
    are gone, and no request was ever sent. *)
Theorem signIn_cancelled (this : TreeVizOAuth) (b : Browser) (n : nat)
    (evs : list event) :
  popup_blocked b = false ->
  promise (run this b (repeat EvTick n ++ [EvUserClosesPopup])) = Pending
  /\ let w := run this b
                (repeat EvTick n ++ EvUserClosesPopup :: EvTick :: evs) in
     promise w
     = Rejected (JsError "Error" "authError.authenticationCancelled")
     /\ listener w = false /\ interval w = false
     /\ settlements (trace w) = 1%nat /\ fetches (trace w) = 0%nat.
Proof.
  intros Hopen.
  pose proof (run_ticks this b n Hopen) as Hticks.
  assert (forall rest,
             run this b (repeat EvTick n ++ rest) = run this b rest)
    as Hskip.
  { intros rest. unfold run in *. rewrite fold_left_app, Hticks.
    reflexivity. }
  rewrite !Hskip. split.
  - unfold run, signIn. rewrite Hopen. destruct (usePKCE this); reflexivity.
  - pose proof (run_after_teardown this b [EvUserClosesPopup; EvTick] evs)
      as Hrest.
    cbn zeta in *. cbn [app] in Hrest.
    assert (let w1 := run this b [EvUserClosesPopup; EvTick] in
            listener w1 = false /\ interval w1 = false /\ awaiting w1 = None
            /\ promise w1
               = Rejected
                   (JsError "Error" "authError.authenticationCancelled")
            /\ settlements (trace w1) = 1%nat /\ fetches (trace w1) = 0%nat)
      as (Hl & Hi & Ha & Hp & Hs & Hf).
    { unfold run, signIn. rewrite Hopen.
      destruct (usePKCE this); cbn; auto 10. }
    destruct (Hrest Hl Hi Ha) as (-> & -> & ? & ?). auto.
Qed.

Lemma signIn_cancelled_witness :
  promise (run Scenario.pkce_client (Scenario.page false)
             (repeat EvTick 5
              ++ EvUserClosesPopup :: EvTick
                 :: [EvMessage Scenario.code_message]))
  = Rejected (JsError "Error" "authError.authenticationCancelled").
Proof.
  exact (proj1 (proj2 (signIn_cancelled Scenario.pkce_client
                         (Scenario.page false) 5
                         [EvMessage Scenario.code_message] eq_refl))).
Defined.

(** In client-secret mode a success message that carries a truthy [token]
    and [uid] resolves the promise straight from the message, with absent or
    falsy [email], [displayName] and [photoURL] turned into [null]; no
    request is sent. *)
Theorem signIn_direct_token (this : TreeVizOAuth) (b : Browser)
    (fields : list (string * value)) (evs : list event) :
  usePKCE this = false ->
  popup_blocked b = false ->
  let field k := default VUndefined (assoc k fields) in
  truthy (field "token") = true ->
  truthy (field "uid") = true ->
  let w := run this b (EvMessage (success_message fields) :: evs) in
  promise w
  = Resolved {| token := field "token"; uid := field "uid";
                email := or_else (field "email") VNull;
                displayName := or_else (field "displayName") VNull;
                photoURL := or_else (field "photoURL") VNull |}
  /\ listener w = false /\ interval w = false
  /\ settlements (trace w) = 1%nat /\ fetches (trace w) = 0%nat.
Proof.
  intros Hmode Hopen field Htoken Huid.
  pose proof (run_after_teardown this b
                [EvMessage (success_message fields)] evs) as Hrest.
  cbn zeta in Hrest. cbn [app] in Hrest. cbn zeta.
  assert (let w1 := run this b [EvMessage (success_message fields)] in
          listener w1 = false /\ interval w1 = false /\ awaiting w1 = None
          /\ promise w1
             = Resolved {| token := field "token"; uid := field "uid";
                           email := or_else (field "email") VNull;
                           displayName := or_else (field "displayName") VNull;
                           photoURL := or_else (field "photoURL") VNull |}
          /\ settlements (trace w1) = 1%nat /\ fetches (trace w1) = 0%nat)
    as (Hl & Hi & Ha & Hp & Hs & Hf).
  { destruct this as [id secret sc pw ph pk url env]. cbn in Hmode. subst pk.
    unfold run, codeVerifier, signIn. cbn [usePKCE]. rewrite Hopen.
    subst field. cbn in *. rewrite Htoken. cbn. rewrite Huid. cbn.
    auto 10. }
  destruct (Hrest Hl Hi Ha) as (-> & -> & ? & ?). auto.
Qed.

Lemma signIn_direct_token_witness :
  promise
    (run secret_client (Scenario.page false)
       [EvMessage (success_message [("token", VStr "T"); ("uid", VStr "U");
                                    ("email", VStr "")])])
  = Resolved {| token := VStr "T"; uid := VStr "U"; email := VNull;
                displayName := VNull; photoURL := VNull |}.
Proof.
  exact (proj1 (signIn_direct_token secret_client (Scenario.page false)
                  [("token", VStr "T"); ("uid", VStr "U");
                   ("email", VStr "")] [] eq_refl eq_refl eq_refl eq_refl)).
Defined.

(** A success message that does not fit the mode of the client (PKCE mode
    without a truthy [code]; client-secret mode without a truthy [token] or
    [uid]) rejects the promise with "Invalid authentication response"
    after the teardown; no request is sent. *)
Theorem signIn_invalid_response (this : TreeVizOAuth) (b : Browser)
    (fields : list (string * value)) (evs : list event) :
  popup_blocked b = false ->
  let field k := default VUndefined (assoc k fields) in
  (if usePKCE this then truthy (field "code")
   else truthy (field "token") && truthy (field "uid")) = false ->
  let w := run this b (EvMessage (success_message fields) :: evs) in
  promise w = Rejected (JsError "Error" "Invalid authentication response")
  /\ listener w = false /\ interval w = false
  /\ settlements (trace w) = 1%nat /\ fetches (trace w) = 0%nat.
Proof.
  intros Hopen field Hmismatch.
  pose proof (run_after_teardown this b
                [EvMessage (success_message fields)] evs) as Hrest.
  cbn zeta in Hrest. cbn [app] in Hrest. cbn zeta.
  assert (let w1 := run this b [EvMessage (success_message fields)] in
          listener w1 = false /\ interval w1 = false /\ awaiting w1 = None
          /\ promise w1
             = Rejected (JsError "Error" "Invalid authentication response")
          /\ settlements (trace w1) = 1%nat /\ fetches (trace w1) = 0%nat)
    as (Hl & Hi & Ha & Hp & Hs & Hf).
  { destruct this as [id secret sc pw ph pk url env].
    unfold run, codeVerifier, signIn. cbn [usePKCE] in *. rewrite Hopen.
    subst field. destruct pk; cbn in *.
    - rewrite Hmismatch. cbn. auto 10.
    - destruct (truthy (default VUndefined (assoc "token" fields)));
        cbn in *; [rewrite Hmismatch; cbn|]; auto 10. }
  destruct (Hrest Hl Hi Ha) as (-> & -> & ? & ?). auto.
Qed.

Lemma signIn_invalid_response_witness :
  promise (run Scenario.pkce_client (Scenario.page false)
             [EvMessage Scenario.token_message])
  = Rejected (JsError "Error" "Invalid authentication response").
Proof.
  exact (proj1 (signIn_invalid_response Scenario.pkce_client
                  (Scenario.page false)
                  [("token", VStr "T"); ("uid", VStr "U"); ("email", VNull);
                   ("displayName", VNull); ("photoURL", VNull)] []
                  eq_refl eq_refl)).
Defined.

Arguments pkce_result : simpl never.

(** In PKCE mode a success message with a truthy [code] tears the
    invocation down and sends one request, to the configured endpoint, with
    that code and the verifier of this invocation; the promise stays pending
    until the request settles. Whatever the network then answers, the
    promise settles: resolved with the mapped result, or rejected with the
    error of the exchange or of the mapping (an [Error] as it is, anything
    else wrapped as "Token exchange failed"). *)
Theorem signIn_exchange_outcome (this : TreeVizOAuth) (b : Browser)
    (fields : list (string * value)) (o : fetch_outcome)
    (evs : list event) :
  usePKCE this = true ->
  popup_blocked b = false ->
  let code := default VUndefined (assoc "code" fields) in
  truthy code = true ->
  let caught e :=
    Rejected (if instanceof_Error e then e
              else JsError "Error" "Token exchange failed") in
  let w1 := run this b [EvMessage (success_message fields)] in
  let w := run this b (EvMessage (success_message fields)
                       :: EvFetchSettles o :: evs) in
  (promise w1 = Pending /\ listener w1 = false /\ interval w1 = false
   /\ List.filter is_fetch (trace w1)
      = [EFetch (exchange_request (default "undefined" (exchangeTokenUrl this))
                   code (Pkce.generateCodeVerifier (crypto b)))])
  /\ promise w
     = match exchange_response o with
       | Throw e => caught e
       | Ok result =>
           match pkce_result result with
           | Ok r => Resolved r
           | Throw e => caught e
           end
       end
  /\ is_pending w = false
  /\ listener w = false /\ interval w = false
  /\ settlements (trace w) = 1%nat /\ fetches (trace w) = 1%nat.
Proof.
  intros Hmode Hopen code Hcode caught.
  pose proof (generateCodeVerifier_nonempty (crypto b)) as Hv.
  pose proof (run_after_teardown this b
                [EvMessage (success_message fields); EvFetchSettles o] evs)
    as Hrest.
  cbn zeta in Hrest. cbn [app] in Hrest. cbn zeta.
  destruct this as [id secret sc pw ph pk url env]. cbn in Hmode. subst pk.
  split.
  - unfold run, codeVerifier, signIn. cbn [usePKCE]. rewrite Hopen.
    subst code. cbn in *. rewrite Hcode.
    unfold verifier_truthy, missing. rewrite Hv. cbn. auto.
  - assert (let w2 := run {| appId := id; appSecret := secret; scopes := sc;
                             popupWidth := pw; popupHeight := ph;
                             usePKCE := true; exchangeTokenUrl := url;
                             environment := env |} b
                        [EvMessage (success_message fields);
                         EvFetchSettles o] in
            listener w2 = false /\ interval w2 = false /\ awaiting w2 = None
            /\ promise w2
               = match exchange_response o with
                 | Throw e => caught e
                 | Ok result =>
                     match pkce_result result with
                     | Ok r => Resolved r
                     | Throw e => caught e
                     end
                 end
            /\ is_pending w2 = false
            /\ settlements (trace w2) = 1%nat /\ fetches (trace w2) = 1%nat)
      as (Hl & Hi & Ha & Hp & Hpend & Hs & Hf).
    { unfold run, codeVerifier, signIn. cbn [usePKCE]. rewrite Hopen.
      subst code caught. cbn in *. rewrite Hcode.
      unfold verifier_truthy, missing. rewrite Hv. cbn.
      destruct (exchange_response o) as [result|e]; cbn;
        [destruct (pkce_result result) as [r|e]; cbn|]; auto 10. }
    destruct (Hrest Hl Hi Ha) as (Hp' & Ht' & ? & ?).
    unfold is_pending in *. rewrite Hp', Ht'. auto 10.
Qed.

Lemma signIn_exchange_outcome_witness :
  promise (run Scenario.pkce_client (Scenario.page false)
             [EvMessage (success_message [("code", VStr "abc")]);
              EvFetchSettles (NetFail (JsThrown (VStr "offline")));
              EvTick])
  = Rejected (JsError "Error" "Token exchange failed").
Proof.
  exact (proj1 (proj2 (signIn_exchange_outcome Scenario.pkce_client
                         (Scenario.page false) [("code", VStr "abc")]
                         (NetFail (JsThrown (VStr "offline"))) [EvTick]
                         eq_refl eq_refl eq_refl))).
Defined.

(** *** What an invocation touches *)

(** [signIn] writes session storage under its two keys and nowhere else: in
    client-secret mode the storage is left as it was, and in PKCE mode every
    other key keeps its value, through any run. *)
Theorem signIn_sessionStorage_frame (this : TreeVizOAuth) (b : Browser)
    (evs : list event) :
  (usePKCE this = false -> sessionStorage (run this b evs) = storage b)
  /\ (forall k : string,
         k <> "pkce_code_verifier" -> k <> "pkce_code_challenge" ->
         sessionStorage (run this b evs) !! k = storage b !! k).
Proof.
  rewrite run_sessionStorage. split.
  - intros Hmode. unfold signIn. rewrite Hmode.
    destruct (popup_blocked b); reflexivity.
  - intros k Hv Hc. destruct (usePKCE this) eqn:Hmode.
    + rewrite signIn_sessionStorage by exact Hmode.
      rewrite !lookup_insert_ne by congruence. reflexivity.
    + unfold signIn. rewrite Hmode.
      destruct (popup_blocked b); reflexivity.
Qed.

Lemma signIn_sessionStorage_frame_witness :
  sessionStorage (run secret_client (Scenario.page false)
                    [EvUserClosesPopup; EvTick])
  = storage (Scenario.page false).
Proof.
  exact (proj1 (signIn_sessionStorage_frame secret_client
                  (Scenario.page false) [EvUserClosesPopup; EvTick])
           eq_refl).
Defined.

Lemma drive_opens (m : async TreeVizAuthResult) (w : world) :
  List.filter is_open (trace (drive m w)) = List.filter is_open (trace w).
Proof. destruct m; reflexivity. Qed.

Lemma step_opens (this : TreeVizOAuth) (cv : option string)
    (w : world) (ev : event) :
  List.filter is_open (trace (step this cv w ev))
  = List.filter is_open (trace w).
Proof.
  destruct ev as [data| | |o]; cbn [step].
  - destruct (listener w); [|reflexivity]. unfold messageHandler.
    repeat match goal with
           | |- context [if ?c then _ else _] => destruct c
           | |- context [match get ?d ?k with _ => _ end] =>
               destruct (get d k)
           end; cbn [fst]; rewrite ?drive_opens; reflexivity.
  - destruct (interval w); [|reflexivity]. unfold checkClosed.
    destruct (closed w); reflexivity.
  - reflexivity.
  - destruct (awaiting w); [|reflexivity].
    rewrite drive_opens. reflexivity.
Qed.

(** One invocation calls [window.open] exactly once, whatever events
    follow: at the authorization URL of the environment followed by
    "/oauth/callback", with the configured size. In PKCE mode the query
    carries the challenge that goes with the stored verifier and the method
    "S256", and no [appSecret] even when one is configured; in client-secret
    mode it carries the secret and no challenge. *)
Theorem signIn_opens_one_popup (this : TreeVizOAuth) (b : Browser)
    (evs : list event) :
  List.filter is_open (trace (run this b evs))
  = [EOpen (Constants.TREEVIZ_OAUTH_URLS (environment this)
            +:+ "/oauth/callback")
       ([("appId", appId this);
         ("origin", origin b);
         ("callbackUri", origin b +:+ "/auth/callback");
         ("scope", join " " (scopes this))]
        ++ (if usePKCE this
            then [("code_challenge",
                   Pkce.generateCodeChallenge (crypto b)
                     (Pkce.generateCodeVerifier (crypto b)));
                  ("code_challenge_method", "S256")]
            else [("appSecret", default "undefined" (appSecret this))]))
       (popupWidth this) (popupHeight this)].
Proof.
  unfold run. generalize (codeVerifier this b). intros cv.
  assert (forall w, List.filter is_open (trace (fold_left (step this cv) evs w))
                    = List.filter is_open (trace w)) as Hrun.
  { induction evs as [|ev evs IH]; intros w; cbn [fold_left];
      [reflexivity|]. rewrite IH. apply step_opens. }
  rewrite Hrun. unfold signIn, authParams, getAuthUrl, codeChallenge.
  destruct (popup_blocked b); destruct (usePKCE this); reflexivity.
Qed.

(** *** At most one exchange *)

Lemma try_block_final (this : TreeVizOAuth) (cv : option string)
    (data : value) (req : request)
    (k : fetch_outcome -> async TreeVizAuthResult) :
  try_block this cv data = Fetch req k -> forall o, final (k o).
Proof.
  unfold try_block.
  destruct (pkce_condition this cv data) as [[|]|e]; cbn.
  - destruct (get data "code") as [code|e]; cbn; [|discriminate].
    intros H. injection H as _ <-. intros o.
    destruct (exchange_response o) as [result|e]; cbn; [|exact I].
    destruct (pkce_result result); exact I.
  - destruct (legacy_condition this data) as [[|]|e]; cbn;
      try discriminate.
    destruct (legacy_result data); discriminate.
  - discriminate.
Qed.

Lemma drive_final (m : async TreeVizAuthResult) (w : world) :
  final m ->
  fetches (trace (drive m w)) = fetches (trace w)
  /\ awaiting (drive m w) = awaiting w
  /\ listener (drive m w) = listener w.
Proof. destruct m; cbn; intros H; [auto|auto|contradiction]. Qed.

Lemma drive_single_exchange (this : TreeVizOAuth) (cv : option string)
    (data : value) (w : world) :
  listener w = false -> awaiting w = None -> fetches (trace w) = 0%nat ->
  single_exchange (drive (try_block this cv data) w).
Proof.
  intros Hl Ha Hf.
  pose proof (try_block_final this cv data) as Hfinal.
  destruct (try_block this cv data) as [r|e|req k];
    destruct w as [l i pop pr aw ss tr]; cbn in *; subst;
    unfold single_exchange, fetches in *; cbn; rewrite ?Hf;
    (split; [lia|split; [intros Hx; discriminate Hx|]]).
  - intros k' Hk. discriminate Hk.
  - intros k' Hk. discriminate Hk.
  - intros k' Hk o. injection Hk as <-. now apply (Hfinal req k).
Qed.

Lemma step_single_exchange (this : TreeVizOAuth) (cv : option string)
    (w : world) (ev : event) :
  single_exchange w -> single_exchange (step this cv w ev).
Proof.
  intros Hw. pose proof Hw as (Hle & Hreg & Hk).
  destruct ev as [data| | |o]; cbn [step].
  - destruct (listener w) eqn:Hl; [|exact Hw].
    destruct (Hreg eq_refl) as [Hf Ha].
    unfold messageHandler.
    repeat match goal with
           | |- context [if ?c then _ else _] => destruct c
           | |- context [match get ?d ?k with _ => _ end] =>
               destruct (get d k)
           end; cbn [fst]; try exact Hw.
    + apply drive_single_exchange; destruct w; cbn in *; auto.
    + destruct w as [l i pop pr aw ss tr]. cbn in *. subst.
      unfold single_exchange, fetches in *. cbn. rewrite Hf.
      split; [lia|split; [intros Hx; discriminate Hx|]].
      intros k' Hk'. discriminate Hk'.
  - destruct (interval w); [|exact Hw].
    unfold checkClosed. destruct (closed w); [|exact Hw].
    destruct w as [l i pop pr aw ss tr].
    unfold single_exchange, fetches in *. cbn in *.
    split; [exact Hle|split; [intros Hx; discriminate Hx|exact Hk]].
  - destruct w as [l i pop pr aw ss tr].
    unfold single_exchange in *. cbn in *. auto.
  - destruct (awaiting w) as [k|] eqn:Ha; [|exact Hw].
    assert (listener w = false) as Hl.
    { destruct (listener w); [|reflexivity].
      destruct (Hreg eq_refl) as [_ Hnone]. congruence. }
    destruct (drive_final (k o) (set_awaiting None w) (Hk k eq_refl o))
      as (Hf' & Ha' & Hl').
    unfold single_exchange. rewrite Hf', Ha', Hl'.
    destruct w as [l i pop pr aw ss tr]. cbn in *. subst.
    split; [exact Hle|split; [intros Hx; discriminate Hx|]].
    intros k' Hk'. discriminate Hk'.
Qed.

(** One invocation never sends more than one exchange request, whatever
    messages, ticks and network answers arrive and in whatever order: the
    code is single-use and is not retried. *)
Theorem signIn_at_most_one_exchange (this : TreeVizOAuth) (b : Browser)
    (evs : list event) :
  (fetches (trace (run this b evs)) <= 1)%nat.
Proof.
  assert (single_exchange (run this b evs)) as [H _]; [|exact H].
  unfold run. generalize (codeVerifier this b). intros cv.
  assert (single_exchange (signIn this b)) as Hw.
  { unfold signIn, single_exchange, fetches.
    destruct (popup_blocked b); destruct (usePKCE this); cbn;
      (split; [lia|split; [auto|intros k Hk; discriminate Hk]]). }
  revert Hw. generalize (signIn this b).
  induction evs as [|ev evs IH]; intros w Hw; cbn [fold_left].
  - exact Hw.
  - apply IH. now apply step_single_exchange.
Qed.

End FlowPaths.

(** ** More on the first revision of the client *)

Section LegacyPaths.
Import JS Api Types Dom Aux.

Lemma strip_trailing_slash_cons (x y : ascii) (rest : string) :
  LegacyClient.strip_trailing_slash (String x (String y rest))
  = String x (LegacyClient.strip_trailing_slash (String y rest)).
Proof. reflexivity. Qed.

(** [authUrl.replace(/\/$/, "")] removes one trailing slash and nothing
    else: a string that ends in another character is returned as it is. *)
Theorem strip_trailing_slash_spec (s : string) :
  LegacyClient.strip_trailing_slash (s +:+ "/") = s
  /\ (forall c : ascii,
         c <> "/"%char ->
         LegacyClient.strip_trailing_slash (s +:+ String c "")
         = s +:+ String c "").
Proof.
  induction s as [|x s [IHslash IHother]].
  - split; [reflexivity|]. intros c Hc.
    change ((if Ascii.eqb c "/" then EmptyString else String c "")
            = String c "").
    destruct (Ascii.eqb_spec c "/"); [contradiction|reflexivity].
  - split.
    + destruct s as [|y s]; [reflexivity|].
      change (String x (String y s) +:+ "/")
        with (String x (String y (s +:+ "/"))).
      rewrite strip_trailing_slash_cons.
      change (String y (s +:+ "/")) with (String y s +:+ "/").
      now rewrite IHslash.
    + intros c Hc. destruct s as [|y s].
      * change (String x (if Ascii.eqb c "/" then EmptyString
                          else String c "")
                = String x (String c "")).
        destruct (Ascii.eqb_spec c "/"); [contradiction|reflexivity].
      * change (String x (String y s) +:+ String c "")
          with (String x (String y (s +:+ String c ""))).
        rewrite strip_trailing_slash_cons.
        change (String y (s +:+ String c ""))
          with (String y s +:+ String c "").
        now rewrite (IHother c Hc).
Qed.

Lemma strip_trailing_slash_spec_witness :
  LegacyClient.strip_trailing_slash "https://treeviz.com//"
  = "https://treeviz.com/"
  /\ LegacyClient.strip_trailing_slash "https://treeviz.com"
     = "https://treeviz.com".
Proof.
  split.
  - exact (proj1 (strip_trailing_slash_spec "https://treeviz.com/")).
  - apply (proj2 (strip_trailing_slash_spec "https://treeviz.co") "m"%char).
    discriminate.
Defined.

(** The first revision requires [authUrl], [appId] and [appSecret] and
    nothing else. A constructed client has the configured [appId] and
    [appSecret], neither empty; the configured [callbackPath], or
    "/oauth/callback" when that is omitted or empty; the configured popup
    width and height when they are not zero, and 600 and 700 when they are
    omitted or zero; the configured scopes, or [["email"; "profile"]]; and
    as [authUrl] the configured one without one trailing slash, which is
    checked before the slash is removed. *)
Theorem legacy_constructor_spec (config : LegacyClient.TreeVizOAuthConfig) :
  (throws (LegacyClient.constructor config) = true <->
   LegacyClient.cfg_authUrl config = ""
   \/ LegacyClient.cfg_appId config = ""
   \/ LegacyClient.cfg_appSecret config = "")
  /\ (forall this,
         LegacyClient.constructor config = Ok this ->
         LegacyClient.authUrl this
         = LegacyClient.strip_trailing_slash (LegacyClient.cfg_authUrl config)
         /\ (LegacyClient.appId this = LegacyClient.cfg_appId config
             /\ LegacyClient.appId this <> "")
         /\ (LegacyClient.appSecret this = LegacyClient.cfg_appSecret config
             /\ LegacyClient.appSecret this <> "")
         /\ (forall path, LegacyClient.cfg_callbackPath config = Some path ->
                          path <> "" -> LegacyClient.callbackPath this = path)
         /\ (LegacyClient.cfg_callbackPath config = None
             \/ LegacyClient.cfg_callbackPath config = Some "" ->
             LegacyClient.callbackPath this = "/oauth/callback")
         /\ (forall n, LegacyClient.cfg_popupWidth config = Some n ->
                       n <> 0%Z -> LegacyClient.popupWidth this = n)
         /\ (LegacyClient.cfg_popupWidth config = None
             \/ LegacyClient.cfg_popupWidth config = Some 0%Z ->
             LegacyClient.popupWidth this = 600%Z)
         /\ (forall n, LegacyClient.cfg_popupHeight config = Some n ->
                       n <> 0%Z -> LegacyClient.popupHeight this = n)
         /\ (LegacyClient.cfg_popupHeight config = None
             \/ LegacyClient.cfg_popupHeight config = Some 0%Z ->
             LegacyClient.popupHeight this = 700%Z)
         /\ LegacyClient.scopes this
            = default ["email"; "profile"] (LegacyClient.cfg_scopes config)).
Proof.
  unfold LegacyClient.constructor.
  destruct (String.eqb_spec (LegacyClient.cfg_authUrl config) "") as [Hu|Hu];
    [split; [split; auto|discriminate]|].
  destruct (String.eqb_spec (LegacyClient.cfg_appId config) "") as [Hi|Hi];
    [split; [split; auto|discriminate]|].
  destruct (String.eqb_spec (LegacyClient.cfg_appSecret config) "") as [Hs|Hs];
    [split; [split; auto|discriminate]|].
  split.
  - cbn. split; [discriminate|]. intros [H|[H|H]]; contradiction.
  - intros this H. injection H as <-.
    cbn [LegacyClient.authUrl LegacyClient.appId LegacyClient.appSecret
         LegacyClient.scopes LegacyClient.callbackPath
         LegacyClient.popupWidth LegacyClient.popupHeight].
    destruct (number_or_spec (LegacyClient.cfg_popupWidth config) 600)
      as [Hw Hw0].
    destruct (number_or_spec (LegacyClient.cfg_popupHeight config) 700)
      as [Hh Hh0].
    split; [reflexivity|]. split; [split; [reflexivity|exact Hi]|].
    split; [split; [reflexivity|exact Hs]|].
    split.
    { intros path -> Hpath. cbn [Client.missing].
      destruct (String.eqb_spec path ""); [contradiction|reflexivity]. }
    split; [intros [->| ->]; reflexivity|].
    split; [exact Hw|]. split; [exact Hw0|].
    split; [exact Hh|]. split; [exact Hh0|reflexivity].
Qed.

(** An [authUrl] that is a lone slash passes the check and leaves a client
    whose [authUrl] is empty; an empty [callbackPath] is replaced. *)
Lemma legacy_constructor_spec_witness :
  exists this,
    LegacyClient.constructor slash_config = Ok this
    /\ LegacyClient.authUrl this = ""
    /\ LegacyClient.callbackPath this = "/oauth/callback".
Proof.
  eexists. split; [reflexivity|].
  destruct (proj2 (legacy_constructor_spec slash_config) _ eq_refl)
    as (Hurl & _ & _ & _ & Hpath & _).
  split; [exact Hurl|]. apply Hpath. right. reflexivity.
Defined.

Lemma legacy_step_unregistered (w : world) (ev : event) :
  listener w = false -> interval w = false ->
  let w' := LegacyClient.step w ev in
  listener w' = false /\ interval w' = false
  /\ promise w' = promise w /\ trace w' = trace w.
Proof.
  intros Hl Hi. destruct ev; cbn; rewrite ?Hl, ?Hi; auto.
Qed.

Lemma legacy_run_unregistered (evs : list event) :
  forall w,
    listener w = false -> interval w = false ->
    let w' := fold_left LegacyClient.step evs w in
    listener w' = false /\ interval w' = false
    /\ promise w' = promise w /\ trace w' = trace w.
Proof.
  induction evs as [|ev evs IH]; intros w Hl Hi; cbn [fold_left].
  - auto.
  - destruct (legacy_step_unregistered w ev Hl Hi) as (Hl' & Hi' & Hp' & Ht').
    destruct (IH _ Hl' Hi') as (? & ? & Hp & Ht).
    cbn zeta. rewrite Hp, Ht. auto.
Qed.

(** In the first revision too, a blocked popup rejects at once and nothing
    is registered, then or later; and when the user closes the popup, the
    next tick clears the timer, removes the listener and rejects with
    "Authentication cancelled", once, whatever follows. *)
Theorem legacy_signIn_blocked_or_cancelled
    (this : LegacyClient.TreeVizOAuth) (b : Browser) (evs : list event) :
  (popup_blocked b = true ->
   let w := LegacyClient.run this b evs in
   promise w
   = Rejected (JsError "Error"
                 "Popup blocked. Please allow popups for this site.")
   /\ listener w = false /\ interval w = false
   /\ occurs EAddListener (trace w) = false
   /\ occurs ESetInterval (trace w) = false)
  /\ (popup_blocked b = false ->
      let w := LegacyClient.run this b (EvUserClosesPopup :: EvTick :: evs) in
      promise w = Rejected (JsError "Error" "Authentication cancelled")
      /\ listener w = false /\ interval w = false
      /\ teardown_precedes_settle (trace w) = true
      /\ settlements (trace w) = 1%nat).
Proof.
  split; intros Hb; cbn zeta.
  - unfold LegacyClient.run.
    destruct (legacy_run_unregistered evs (LegacyClient.signIn this b))
      as (Hl & Hi & Hp & Ht);
      try (unfold LegacyClient.signIn; rewrite Hb; reflexivity).
    rewrite Hp, Ht, Hl, Hi. unfold LegacyClient.signIn. rewrite Hb. cbn.
    auto 10.
  - unfold LegacyClient.run. cbn [fold_left].
    destruct (legacy_run_unregistered evs
                (LegacyClient.step
                   (LegacyClient.step (LegacyClient.signIn this b)
                      EvUserClosesPopup) EvTick))
      as (Hl & Hi & Hp & Ht);
      try (unfold LegacyClient.signIn; rewrite Hb; reflexivity).
    rewrite Hp, Ht, Hl, Hi. unfold LegacyClient.signIn. rewrite Hb. cbn.
    auto 10.
Qed.

Lemma legacy_signIn_blocked_or_cancelled_witness :
  promise (LegacyClient.run Scenario.legacy_client (Scenario.page false)
             [EvUserClosesPopup; EvTick; EvMessage Scenario.token_message])
  = Rejected (JsError "Error" "Authentication cancelled").
Proof.
  exact (proj1 (proj2 (legacy_signIn_blocked_or_cancelled
                         Scenario.legacy_client (Scenario.page false)
                         [EvMessage Scenario.token_message]) eq_refl)).
Defined.

End LegacyPaths.

(** ** The provider endpoints of the SDK *)

Section SdkFacts.
Import JS Api Sdk.

Lemma envelope_throws (o : fetch_outcome) (k : fetch_outcome -> result value)
    (failed invalid : response -> exn) :
  (forall o, k o
             = match o with
               | NetFail e => Throw e
               | NetResponse response =>
                   if negb (ok response) then Throw (failed response)
                   else
                     match json response with
                     | None =>
                         Throw (JsError "SyntaxError" "Unexpected token in JSON")
                     | Some result =>
                         do inner <- get result "result";
                         if negb (truthy inner) then Throw (invalid response)
                         else Ok inner
                     end
               end) ->
  throws (k o)
  = match o with
    | NetFail _ => true
    | NetResponse r =>
        negb (ok r)
        || match json r with
           | None => true
           | Some body => negb (has_truthy body "result")
           end
    end
  /\ (throws (k o) = false ->
      forall r body, o = NetResponse r -> json r = Some body ->
                     get body "result" = k o).
Proof.
  intros Hk. rewrite Hk. destruct o as [e|r]; [split; [reflexivity|discriminate]|].
  unfold has_truthy. destruct (ok r); cbn [negb orb].
  - destruct (json r) as [body|] eqn:Hjson;
      [|split; [reflexivity|discriminate]].
    destruct (get body "result") as [inner|e] eqn:Hget; cbn [bind throws negb].
    + destruct (truthy inner); cbn [negb throws]; split;
        try reflexivity; try discriminate.
      intros _ r' body' Hr Hbody. injection Hr as <-.
      rewrite Hjson in Hbody. injection Hbody as <-. exact Hget.
    + split; [reflexivity|discriminate].
  - split; [reflexivity|discriminate].
Qed.

Lemma run_fetch_lift (net : nat -> request -> fetch_outcome)
    (req : request) (k : fetch_outcome -> result value) :
  fst (run net (Fetch req (fun o => lift (k o)))) = [req].
Proof.
  unfold run. cbn [run_from]. destruct (k (net 0%nat req)); reflexivity.
Qed.

(** [exchangeAuthorizationCode] sends one POST, to the token endpoint of
    the environment (production when none is given), whose body wraps the
    parameters under [data], with [appSecret] present only when one was
    given. It throws when the request fails, the status is not 2xx, the body
    is not JSON or has no truthy [result], and in no other case; otherwise
    it returns [result]. *)
Theorem exchangeAuthorizationCode_contract
    (net : nat -> request -> fetch_outcome)
    (params : TokenExchangeRequest)
    (environment : option Constants.environment) :
  let req := post (TREEVIZ_TOKEN_ENDPOINTS
                     (default Constants.production environment))
                  (token_params params) in
  let '(log, outcome) := run net (exchangeAuthorizationCode params environment) in
  log = [req]
  /\ has_field (token_params params) "appSecret"
     = bool_decide (is_Some (ter_appSecret params))
  /\ throws outcome
     = match net 0%nat req with
       | NetFail _ => true
       | NetResponse r =>
           negb (ok r)
           || match json r with
              | None => true
              | Some body => negb (has_truthy body "result")
              end
       end
  /\ (throws outcome = false ->
      forall r body, net 0%nat req = NetResponse r -> json r = Some body ->
                     get body "result" = outcome).
Proof.
  cbn zeta. unfold run, exchangeAuthorizationCode. cbn [run_from].
  set (req := post _ _).
  destruct (envelope_throws (net 0%nat req) token_response
              (fun response =>
                 JsError "Error"
                   ("TreeViz token exchange failed ("
                    +:+ pretty (status response) +:+ "): " +:+ text response))
              (fun _ => JsError "Error"
                          "Invalid response from TreeViz token endpoint"))
    as [Hthrows Hok]; [reflexivity|].
  destruct (token_response (net 0%nat req)) as [v|e] eqn:Hout; cbn [lift run_from].
  - split; [reflexivity|]. split; [|split; [exact Hthrows|exact Hok]].
    unfold token_params. destruct (ter_appSecret params); reflexivity.
  - split; [reflexivity|]. split; [|split; [exact Hthrows|exact Hok]].
    unfold token_params. destruct (ter_appSecret params); reflexivity.
Qed.

Lemma exchangeAuthorizationCode_contract_witness :
  let '(log, outcome) :=
    run (Scenario.flaky (Scenario.envelope 401 VNull)
           (Scenario.envelope 200 (VObj [("result", VStr "ok")])))
        (exchangeAuthorizationCode
           {| ter_appId := "your-app-id"; ter_appSecret := None;
              ter_code := "abc"; ter_codeVerifier := "verifier" |} None) in
  List.length log = 1%nat /\ throws outcome = true.
Proof.
  pose proof (exchangeAuthorizationCode_contract
                (Scenario.flaky (Scenario.envelope 401 VNull)
                   (Scenario.envelope 200 (VObj [("result", VStr "ok")])))
                {| ter_appId := "your-app-id"; ter_appSecret := None;
                   ter_code := "abc"; ter_codeVerifier := "verifier" |} None)
    as H.
  cbn zeta in H. destruct (run _ _) as [log outcome].
  destruct H as (-> & _ & -> & _). split; reflexivity.
Defined.

(** [generateAuthorizationCode] does the same against the authorize
    endpoint, with [{appId, uid, codeChallenge, codeChallengeMethod}] under
    [data]. *)
Theorem generateAuthorizationCode_contract
    (net : nat -> request -> fetch_outcome)
    (params : AuthorizationRequest)
    (environment : option Constants.environment) :
  let req := post (TREEVIZ_AUTHORIZE_ENDPOINTS
                     (default Constants.production environment))
                  (VObj [("appId", VStr (ar_appId params));
                         ("uid", VStr (ar_uid params));
                         ("codeChallenge", VStr (ar_codeChallenge params));
                         ("codeChallengeMethod",
                          VStr (method_name (ar_codeChallengeMethod params)))])
  in
  let '(log, outcome) := run net (generateAuthorizationCode params environment) in
  log = [req]
  /\ throws outcome
     = match net 0%nat req with
       | NetFail _ => true
       | NetResponse r =>
           negb (ok r)
           || match json r with
              | None => true
              | Some body => negb (has_truthy body "result")
              end
       end
  /\ (throws outcome = false ->
      forall r body, net 0%nat req = NetResponse r -> json r = Some body ->
                     get body "result" = outcome).
Proof.
  cbn zeta. unfold run, generateAuthorizationCode. cbn [run_from].
  fold (authorization_params params). set (req := post _ _).
  destruct (envelope_throws (net 0%nat req) authorize_response
              (fun response =>
                 JsError "Error"
                   ("TreeViz authorization failed ("
                    +:+ pretty (status response) +:+ "): " +:+ text response))
              (fun _ => JsError "Error"
                          "Invalid response from TreeViz authorize endpoint"))
    as [Hthrows Hok]; [reflexivity|].
  destruct (authorize_response (net 0%nat req)) as [v|e];
    cbn [lift run_from]; auto.
Qed.

Lemma generateAuthorizationCode_contract_witness :
  let '(log, outcome) :=
    run (fun _ _ => Scenario.envelope 200
                      (VObj [("result", VObj [("code", VStr "abc");
                                              ("expiresIn", VNum 600)])]))
        (generateAuthorizationCode
           {| ar_appId := "your-app-id"; ar_uid := "U";
              ar_codeChallenge := "challenge";
              ar_codeChallengeMethod := S256 |}
           (Some Constants.development)) in
  outcome = Ok (VObj [("code", VStr "abc"); ("expiresIn", VNum 600)]).
Proof.
  pose proof (generateAuthorizationCode_contract
                (fun _ _ => Scenario.envelope 200
                              (VObj [("result",
                                      VObj [("code", VStr "abc");
                                            ("expiresIn", VNum 600)])]))
                {| ar_appId := "your-app-id"; ar_uid := "U";
                   ar_codeChallenge := "challenge";
                   ar_codeChallengeMethod := S256 |}
                (Some Constants.development)) as H.
  cbn zeta in H. destruct (run _ _) as [log outcome].
  destruct H as (_ & Hthrows & Hok).
  symmetry.
  exact (Hok Hthrows _
           (VObj [("result", VObj [("code", VStr "abc");
                                   ("expiresIn", VNum 600)])])
           eq_refl eq_refl).
Defined.

(** The SDK object passes its own [appId], [appSecret] and environment on:
    [exchangeCode] posts to the token endpoint of the configured
    environment, production when the configuration names none, and
    [generateAuthCode] to the authorize endpoint, with the method "S256"
    when the caller gives none. *)
Theorem TreeVizOAuthAPI_requests
    (net : nat -> request -> fetch_outcome)
    (config : TreeVizOAuthAPIConfig) (code codeVerifier uid challenge : string)
    (method : option challenge_method) :
  let this := constructor config in
  let env := default Constants.production (api_cfg_environment config) in
  fst (run net (exchangeCode this code codeVerifier))
  = [post (TREEVIZ_TOKEN_ENDPOINTS env)
       (VObj ([("appId", VStr (api_cfg_appId config))]
              ++ match api_cfg_appSecret config with
                 | Some secret => [("appSecret", VStr secret)]
                 | None => []
                 end
              ++ [("code", VStr code); ("codeVerifier", VStr codeVerifier)]))]
  /\ fst (run net (generateAuthCode this uid challenge method))
     = [post (TREEVIZ_AUTHORIZE_ENDPOINTS env)
          (VObj [("appId", VStr (api_cfg_appId config));
                 ("uid", VStr uid);
                 ("codeChallenge", VStr challenge);
                 ("codeChallengeMethod",
                  VStr (match method with
                        | Some plain => "plain"
                        | _ => "S256"
                        end))])].
Proof.
  cbn zeta. split.
  - unfold exchangeCode, exchangeAuthorizationCode. rewrite run_fetch_lift.
    reflexivity.
  - unfold generateAuthCode, generateAuthorizationCode.
    rewrite run_fetch_lift. destruct method as [[|]|]; reflexivity.
Qed.

End SdkFacts.
